(** * Crazy Eights: the game controller of [src/App.tsx]

    A shallow embedding of the React component [App].

    - The state hooks become the record [State].
    - A handler ([drawCard], [playCard], [handleSuitSelect], [initGame],
      the opponent's effect and the body of its timer) reads the values
      of the render it was created in and calls setters and
      [setTimeout]; it becomes a function from that render to the list
      of [Action]s it issues, in the small monad [Eff], which also
      records a [TypeError] cutting the run short.
    - A function handed to [setTimeout] keeps the render it closes over:
      [Callback] carries it.
    - The mounted component is a timed transition system [Sys]: the
      state of the last render, the pending timers and the clock; an
      [Event] is a click at a given time or the firing of the earliest
      pending timer. *)

From Stdlib Require Import List String Bool Arith ZArith Lia Permutation.
Import ListNotations.
Local Open Scope string_scope.
Local Open Scope list_scope.

(** ** Domain types ([./types], imported by [App.tsx]) *)

(** Modelled from the spec: the enumeration [Suit] of [./types] (the file
    is not part of the sources at hand); four values, used as the string
    keys of the opponent's suit tally. *)
Inductive Suit : Type := HEARTS | DIAMONDS | CLUBS | SPADES.

(** Modelled from the spec: the enumeration [Rank] of [./types]; thirteen
    values, [EIGHT] being the wild rank. *)
Inductive Rank : Type :=
  | ACE | TWO | THREE | FOUR | FIVE | SIX | SEVEN | EIGHT | NINE | TEN
  | JACK | QUEEN | KING.

Inductive Turn : Type := player | ai.

Inductive GameStatus : Type := playing | player_won | ai_won.

(** Modelled from the spec: the interface [CardData] of [./types],
    [{ id, suit, rank }]. *)
Record CardData : Type := mkCard {
  id : string;
  suit : Suit;
  rank : Rank
}.

Definition Suit_eqb (a b : Suit) : bool :=
  match a, b with
  | HEARTS, HEARTS | DIAMONDS, DIAMONDS | CLUBS, CLUBS | SPADES, SPADES => true
  | _, _ => false
  end.

Definition Rank_eqb (a b : Rank) : bool :=
  match a, b with
  | ACE, ACE | TWO, TWO | THREE, THREE | FOUR, FOUR | FIVE, FIVE
  | SIX, SIX | SEVEN, SEVEN | EIGHT, EIGHT | NINE, NINE | TEN, TEN
  | JACK, JACK | QUEEN, QUEEN | KING, KING => true
  | _, _ => false
  end.

Definition Turn_eqb (a b : Turn) : bool :=
  match a, b with
  | player, player | ai, ai => true
  | _, _ => false
  end.

Definition GameStatus_eqb (a b : GameStatus) : bool :=
  match a, b with
  | playing, playing | player_won, player_won | ai_won, ai_won => true
  | _, _ => false
  end.

(** [card.suit === currentSuit], where [currentSuit : Suit | null]. *)
Definition suit_is (s : Suit) (cur : option Suit) : bool :=
  match cur with
  | Some s' => Suit_eqb s s'
  | None => false
  end.

Definition CardData_eqb (a b : CardData) : bool :=
  String.eqb (id a) (id b) && Suit_eqb (suit a) (suit b)
  && Rank_eqb (rank a) (rank b).

(** The status line.  The texts are presentation only; the template
    literals of the source become constructors carrying their holes. *)
Inductive Message : Type :=
  | MsgWelcome                 (* "Welcome to Crazy Eights!" *)
  | MsgYourTurn                (* "Your turn! Match the suit or rank." *)
  | MsgPlayerWon               (* "Congratulations! You won!" *)
  | MsgAiWon                   (* "AI won! Better luck next time." *)
  | MsgDeckEmpty               (* "Deck is empty! Skipping turn." *)
  | MsgYouDrew                 (* "You drew a card." *)
  | MsgAiDrew                  (* "AI drew a card." *)
  | MsgChooseSuit              (* "Choose a new suit!" *)
  | MsgAiEight (s : Suit)      (* `AI played an 8 and chose ${bestSuit}!` *)
  | MsgPlayed (who : Turn) (r : Rank) (s : Suit)
                               (* `${who} played ${card.rank} of ${card.suit}.` *)
  | MsgAiNoMoves               (* "AI has no moves and deck is empty. Skipping." *)
  | MsgYouChose (s : Suit).    (* `You chose ${suit}!` *)

(** ** The component state: one field per [useState] hook *)

Record State : Type := mkState {
  deck : list CardData;
  playerHand : list CardData;
  aiHand : list CardData;
  discardPile : list CardData;
  currentSuit : option Suit;
  turn : Turn;
  status : GameStatus;
  showSuitSelector : bool;
  message : Message;
  isAiThinking : bool
}.

(** The initial values handed to the hooks. *)
Definition initialState : State :=
  mkState [] [] [] [] None player playing false MsgWelcome false.

Definition other (t : Turn) : Turn :=
  match t with player => ai | ai => player end.

(** [a[a.length - 1]]: the last element, [undefined] on an empty array. *)
Fixpoint lastOf {A : Type} (l : list A) : option A :=
  match l with
  | [] => None
  | [x] => Some x
  | _ :: t => lastOf t
  end.

(** ** Legality: [canPlay]

    [discardPile[discardPile.length - 1]] is [undefined] on an empty pile,
    and reading [.rank] of it throws a [TypeError]: that is [None].  The
    [||] is evaluated left to right, so a matching suit returns before the
    top card is looked at. *)
Definition canPlay (r : State) (card : CardData) : option bool :=
  if Rank_eqb (rank card) EIGHT then Some true
  else
    let topCard := lastOf (discardPile r) in
    if suit_is (suit card) (currentSuit r) then Some true
    else match topCard with
         | Some top => Some (Rank_eqb (rank card) (rank top))
         | None => None
         end.

(** ** Closures, state updates and the handler monad *)

(** The functions handed to [setTimeout].  Each one closes over the
    render [r] in which it was created and keeps reading that render's
    values when it runs. *)
Inductive Callback : Type :=
  | CbSetTurn (t : Turn)
      (* () => setTurn(t) *)
  | CbCheckWinTurn (r : State) (t : Turn)
      (* () => { if (!checkWin()) setTurn(t); } *)
  | CbAiTurn (r : State).
      (* the body of the opponent's thinking timer *)

(** What a handler does to the world: a state setter called with a value,
    or a timer registered with its delay in milliseconds. *)
Inductive Action : Type :=
  | SetDeck (l : list CardData)
  | SetPlayerHand (l : list CardData)
  | SetAiHand (l : list CardData)
  | SetDiscardPile (l : list CardData)
  | SetCurrentSuit (s : option Suit)
  | SetTurn (t : Turn)
  | SetStatus (g : GameStatus)
  | SetShowSuitSelector (b : bool)
  | SetMessage (m : Message)
  | SetIsAiThinking (b : bool)
  | SetTimeout (cb : Callback) (ms : nat).

(** A handler run: the actions issued so far, and the value returned, or
    [None] when a [TypeError] cut the run short.  Setters called before
    the throw stay issued. *)
Definition Eff (A : Type) : Type := (list Action * option A)%type.

Definition ret {A : Type} (a : A) : Eff A := ([], Some a).

Definition bind {A B : Type} (m : Eff A) (k : A -> Eff B) : Eff B :=
  match m with
  | (acts, Some a) => let (acts', b) := k a in (acts ++ acts', b)
  | (acts, None) => (acts, None)
  end.

Definition emit (acts : list Action) : Eff unit := (acts, Some tt).

Definition lift {A : Type} (o : option A) : Eff A := ([], o).

Declare Scope eff_scope.
Delimit Scope eff_scope with eff.
Notation "x <- m ;; k" := (bind m (fun x => k))
  (at level 61, m at next level, right associativity) : eff_scope.
Notation "m ;; k" := (bind m (fun _ => k))
  (at level 61, right associativity) : eff_scope.
Local Open Scope eff_scope.

Definition actions {A : Type} (m : Eff A) : list Action := fst m.
Definition threw {A : Type} (m : Eff A) : bool :=
  match snd m with Some _ => false | None => true end.

(** [array.filter(f)] for a callback that may throw. *)
Fixpoint filterE {A : Type} (f : A -> option bool) (l : list A)
  : option (list A) :=
  match l with
  | [] => Some []
  | x :: t =>
      match f x with
      | None => None
      | Some b =>
          match filterE f t with
          | None => None
          | Some t' => Some (if b then x :: t' else t')
          end
      end
  end.

(** ** [checkWin]

    The function is memoised on [playerHand.length] and
    [aiHand.length]: the lengths it tests are those of the render it is
    taken from. *)
Definition checkWin (r : State) : Eff bool :=
  if Nat.eqb (List.length (playerHand r)) 0 then
    emit [SetStatus player_won; SetMessage MsgPlayerWon];; ret true
  else if Nat.eqb (List.length (aiHand r)) 0 then
    emit [SetStatus ai_won; SetMessage MsgAiWon];; ret true
  else ret false.

(** ** [drawCard]

    [deck.length === 0] is the case in which the deck has no last card;
    otherwise [newDeck.pop()] takes the last card off a copy of the
    deck. *)
Definition drawCard (r : State) (target : Turn) : Eff unit :=
  match lastOf (deck r) with
  | None =>
      emit [SetMessage MsgDeckEmpty; SetTurn (other target)]
  | Some drawnCard =>
      let newDeck := removelast (deck r) in
      emit [SetDeck newDeck];;
      match target with
      | player =>
          emit [SetPlayerHand (playerHand r ++ [drawnCard]);
                SetMessage MsgYouDrew];;
          ok <- lift (canPlay r drawnCard);;
          if negb ok then emit [SetTimeout (CbSetTurn ai) 1000] else ret tt
      | ai =>
          emit [SetAiHand (aiHand r ++ [drawnCard]); SetMessage MsgAiDrew]
      end
  end.

(** ** The opponent's suit tally in [playCard]

    [suitCounts] is an object used as a map from suit names to numbers;
    [Object.keys] lists its keys in the order they were first written,
    so the tally is an association list kept in insertion order. *)
Fixpoint bump (s : Suit) (counts : list (Suit * nat)) : list (Suit * nat) :=
  match counts with
  | [] => [(s, 0 + 1)]
  | (k, n) :: rest =>
      if Suit_eqb k s then (k, n + 1) :: rest else (k, n) :: bump s rest
  end.

Definition suitCounts (hand : list CardData) : list (Suit * nat) :=
  fold_left (fun counts c => bump (suit c) counts) hand [].

Fixpoint countOf (counts : list (Suit * nat)) (s : Suit) : nat :=
  match counts with
  | [] => 0
  | (k, n) :: rest => if Suit_eqb k s then n else countOf rest s
  end.

(** [Array.prototype.sort(cmp)] is a stable sort: elements stay in their
    order unless [cmp] is positive on them.  Insertion from the right is
    such a sort. *)
Fixpoint insertBy {A : Type} (cmp : A -> A -> bool) (a : A) (l : list A)
  : list A :=
  match l with
  | [] => [a]
  | b :: t => if cmp a b then b :: insertBy cmp a t else a :: b :: t
  end.

Definition sortBy {A : Type} (cmp : A -> A -> bool) (l : list A) : list A :=
  fold_right (insertBy cmp) [] l.

(** [(a, b) => suitCounts[b] - suitCounts[a]] is positive exactly when
    [b] has the larger count. *)
Definition byCountDesc (counts : list (Suit * nat)) (a b : Suit) : bool :=
  Nat.ltb (countOf counts a) (countOf counts b).

Definition bestSuit (hand : list CardData) : Suit :=
  let counts := suitCounts hand in
  match sortBy (byCountDesc counts) (map fst counts) with
  | k :: _ => k
  | [] => SPADES
  end.

(** ** [playCard]

    [aiHand] in the tally is the hand of the render: the [setAiHand]
    just called has not replaced it.  The [checkWin] of the delayed win
    check is the one of the same render. *)
Definition playCard (r : State) (card : CardData) (target : Turn) : Eff unit :=
  let keep := fun c : CardData => negb (String.eqb (id c) (id card)) in
  emit [match target with
        | player => SetPlayerHand (filter keep (playerHand r))
        | ai => SetAiHand (filter keep (aiHand r))
        end];;
  emit [SetDiscardPile (discardPile r ++ [card]);
        SetCurrentSuit (Some (suit card))];;
  if Rank_eqb (rank card) EIGHT then
    match target with
    | player =>
        emit [SetShowSuitSelector true; SetMessage MsgChooseSuit]
    | ai =>
        let best := bestSuit (aiHand r) in
        emit [SetCurrentSuit (Some best);
              SetMessage (MsgAiEight best);
              SetTimeout (CbCheckWinTurn r player) 1500]
    end
  else
    emit [SetMessage (MsgPlayed target (rank card) (suit card));
          SetTimeout (CbCheckWinTurn r (other target)) 1000].

(** ** [handleSuitSelect] *)
Definition handleSuitSelect (r : State) (s : Suit) : Eff unit :=
  emit [SetCurrentSuit (Some s);
        SetShowSuitSelector false;
        SetMessage (MsgYouChose s);
        SetTimeout (CbCheckWinTurn r ai) 1000].

(** ** The opponent: the effect and the body of its timer *)

(** The effect of [useEffect], run in render [r]. *)
Definition aiTurnEffect (r : State) : Eff unit :=
  if Turn_eqb (turn r) ai && GameStatus_eqb (status r) playing
     && negb (isAiThinking r)
  then emit [SetIsAiThinking true; SetTimeout (CbAiTurn r) 2000]
  else ret tt.

Definition isNonEight (c : CardData) : bool := negb (Rank_eqb (rank c) EIGHT).

(** The function the effect hands to [setTimeout]. *)
Definition aiTurnCallback (r : State) : Eff unit :=
  playableCards <- lift (filterE (canPlay r) (aiHand r));;
  match playableCards with
  | first :: _ =>
      let nonEights := filter isNonEight playableCards in
      let cardToPlay := match nonEights with c :: _ => c | [] => first end in
      playCard r cardToPlay ai
  | [] =>
      if Nat.ltb 0 (List.length (deck r)) then
        drawCard r ai;;
        emit [SetTimeout (CbSetTurn player) 1000]
      else
        emit [SetMessage MsgAiNoMoves; SetTurn player]
  end;;
  emit [SetIsAiThinking false].

(** Running a timer's function. *)
Definition runCallback (cb : Callback) : Eff unit :=
  match cb with
  | CbSetTurn t => emit [SetTurn t]
  | CbCheckWinTurn r t =>
      won <- checkWin r;;
      if negb won then emit [SetTurn t] else ret tt
  | CbAiTurn r => aiTurnCallback r
  end.

(** ** Decks ([./constants], imported by [App.tsx]) *)

Definition suits : list Suit := [HEARTS; DIAMONDS; CLUBS; SPADES].

Definition ranks : list Rank :=
  [ACE; TWO; THREE; FOUR; FIVE; SIX; SEVEN; EIGHT; NINE; TEN; JACK; QUEEN; KING].

Definition face (c : CardData) : Suit * Rank := (suit c, rank c).

Definition face_eqb (a b : Suit * Rank) : bool :=
  Suit_eqb (fst a) (fst b) && Rank_eqb (snd a) (snd b).

Definition allFaces : list (Suit * Rank) := list_prod suits ranks.

Definition suitName (s : Suit) : string :=
  match s with
  | HEARTS => "hearts" | DIAMONDS => "diamonds"
  | CLUBS => "clubs" | SPADES => "spades"
  end.

Definition rankName (r : Rank) : string :=
  match r with
  | ACE => "A" | TWO => "2" | THREE => "3" | FOUR => "4" | FIVE => "5"
  | SIX => "6" | SEVEN => "7" | EIGHT => "8" | NINE => "9" | TEN => "10"
  | JACK => "J" | QUEEN => "Q" | KING => "K"
  end.

(** The card of a face, named after it. *)
Definition cardOf (r : Rank) (s : Suit) : CardData :=
  mkCard (rankName r ++ "-" ++ suitName s) s r.

(** Modelled from the spec: [createDeck] of [./constants] (not part of
    the sources at hand): 52 cards, one for every pair of a suit and a
    rank, each with an identifier of its own. *)
Definition createDeck : list CardData :=
  flat_map (fun s => map (fun r => cardOf r s) ranks) suits.

Fixpoint nodupb {A : Type} (eqb : A -> A -> bool) (l : list A) : bool :=
  match l with
  | [] => true
  | x :: t => negb (existsb (eqb x) t) && nodupb eqb t
  end.

(** Modelled from the spec: what [shuffleDeck(createDeck())] of
    [./constants] may return, a reordering of a full deck: 52 cards with
    distinct identifiers showing every face. *)
Definition isFullDeck (d : list CardData) : bool :=
  nodupb String.eqb (map id d)
  && Nat.eqb (List.length d) 52
  && forallb (fun f => existsb (face_eqb f) (map face d)) allFaces.

(** ** [initGame] *)

(** The [while] loop: the index of the first card that is not an Eight.
    Running off the end reads [.rank] of [undefined] and throws. *)
Fixpoint firstNonEight (l : list CardData) : option nat :=
  match l with
  | [] => None
  | c :: t =>
      if Rank_eqb (rank c) EIGHT then option_map S (firstNonEight t)
      else Some 0
  end.

(** [initGame], given the value of [shuffleDeck(createDeck())]. *)
Definition initGame (shuffled : list CardData) : Eff unit :=
  let pHand := firstn 8 shuffled in
  let fullDeck := skipn 8 shuffled in
  let aHand := firstn 8 fullDeck in
  let fullDeck := skipn 8 fullDeck in
  firstDiscardIndex <- lift (firstNonEight fullDeck);;
  firstDiscard <- lift (nth_error fullDeck firstDiscardIndex);;
  let fullDeck :=
    firstn firstDiscardIndex fullDeck ++ skipn (S firstDiscardIndex) fullDeck in
  emit [SetDeck fullDeck;
        SetPlayerHand pHand;
        SetAiHand aHand;
        SetDiscardPile [firstDiscard];
        SetCurrentSuit (Some (suit firstDiscard));
        SetTurn player;
        SetStatus playing;
        SetMessage MsgYourTurn;
        SetShowSuitSelector false;
        SetIsAiThinking false].

(** ** The running component *)

(** The component between two events: the state of the last render, the
    timers not yet fired (each with the time it falls due, earliest
    first, in registration order among equals) and the clock, in
    milliseconds. *)
Record Sys : Type := mkSys {
  cur : State;
  timers : list (nat * Callback);
  now : nat
}.

Fixpoint schedule (due : nat) (cb : Callback) (ts : list (nat * Callback))
  : list (nat * Callback) :=
  match ts with
  | [] => [(due, cb)]
  | (d, c) :: rest =>
      if Nat.ltb due d then (due, cb) :: (d, c) :: rest
      else (d, c) :: schedule due cb rest
  end.

(** A setter called with a value replaces the field. *)
Definition applyState (r : State) (a : Action) : State :=
  match a with
  | SetDeck l =>
      mkState l (playerHand r) (aiHand r) (discardPile r) (currentSuit r)
        (turn r) (status r) (showSuitSelector r) (message r) (isAiThinking r)
  | SetPlayerHand l =>
      mkState (deck r) l (aiHand r) (discardPile r) (currentSuit r)
        (turn r) (status r) (showSuitSelector r) (message r) (isAiThinking r)
  | SetAiHand l =>
      mkState (deck r) (playerHand r) l (discardPile r) (currentSuit r)
        (turn r) (status r) (showSuitSelector r) (message r) (isAiThinking r)
  | SetDiscardPile l =>
      mkState (deck r) (playerHand r) (aiHand r) l (currentSuit r)
        (turn r) (status r) (showSuitSelector r) (message r) (isAiThinking r)
  | SetCurrentSuit x =>
      mkState (deck r) (playerHand r) (aiHand r) (discardPile r) x
        (turn r) (status r) (showSuitSelector r) (message r) (isAiThinking r)
  | SetTurn t =>
      mkState (deck r) (playerHand r) (aiHand r) (discardPile r)
        (currentSuit r) t (status r) (showSuitSelector r) (message r)
        (isAiThinking r)
  | SetStatus g =>
      mkState (deck r) (playerHand r) (aiHand r) (discardPile r)
        (currentSuit r) (turn r) g (showSuitSelector r) (message r)
        (isAiThinking r)
  | SetShowSuitSelector b =>
      mkState (deck r) (playerHand r) (aiHand r) (discardPile r)
        (currentSuit r) (turn r) (status r) b (message r) (isAiThinking r)
  | SetMessage m =>
      mkState (deck r) (playerHand r) (aiHand r) (discardPile r)
        (currentSuit r) (turn r) (status r) (showSuitSelector r) m
        (isAiThinking r)
  | SetIsAiThinking b =>
      mkState (deck r) (playerHand r) (aiHand r) (discardPile r)
        (currentSuit r) (turn r) (status r) (showSuitSelector r) (message r) b
  | SetTimeout _ _ => r
  end.

(** [setTimeout(cb, ms)] registers [cb] for [ms] milliseconds from now. *)
Definition applyAction (s : Sys) (a : Action) : Sys :=
  match a with
  | SetTimeout cb ms =>
      mkSys (cur s) (schedule (now s + ms) cb (timers s)) (now s)
  | _ => mkSys (applyState (cur s) a) (timers s) (now s)
  end.

Definition applyActions (acts : list Action) (s : Sys) : Sys :=
  fold_left applyAction acts s.

(** What a handler run leaves behind, with or without a throw. *)
Definition exec {A : Type} (m : Eff A) (s : Sys) : Sys :=
  applyActions (actions m) s.

(** ** Rendering and the opponent's effect

    The effect lists [turn, aiHand, status, discardPile, currentSuit,
    deck.length] as its dependencies and runs after a render in which one
    of them differs from the render before.  The two arrays are compared
    by identity, and every setter call of this component passes an array
    built for the call, so setting one counts as a change. *)
Definition isArrayDep (a : Action) : bool :=
  match a with
  | SetAiHand _ | SetDiscardPile _ => true
  | _ => false
  end.

Definition option_Suit_eqb (a b : option Suit) : bool :=
  match a, b with
  | Some x, Some y => Suit_eqb x y
  | None, None => true
  | _, _ => false
  end.

Definition depsChanged (before after : State) (acts : list Action) : bool :=
  negb (Turn_eqb (turn before) (turn after))
  || existsb isArrayDep acts
  || negb (GameStatus_eqb (status before) (status after))
  || negb (option_Suit_eqb (currentSuit before) (currentSuit after))
  || negb (Nat.eqb (List.length (deck before)) (List.length (deck after))).

(** One batch of updates: they are applied together, the component
    renders, and the effect runs if its dependencies changed. *)
Definition commit (acts : list Action) (s : Sys) : Sys :=
  let s' := applyActions acts s in
  if depsChanged (cur s) (cur s') acts
  then exec (aiTurnEffect (cur s')) s'
  else s'.

(** Updates rendered one by one. *)
Definition commitEach (acts : list Action) (s : Sys) : Sys :=
  fold_left (fun s a => commit [a] s) acts s.

(** Updates issued inside a click handler are always rendered as one
    batch.  Those issued inside a timer are batched too under React 18's
    root ([batched = true]); under the legacy root each one is rendered on
    its own ([batched = false]).  The sources at hand do not show which
    root mounts the component, so the system takes it as a parameter. *)
Definition commitTimer (batched : bool) (acts : list Action) (s : Sys) : Sys :=
  if batched then commit acts s else commitEach acts s.

(** ** Events

    The suit selector and the game-over dialog are drawn over the whole
    table, so that a pointer reaches nothing under them while they are
    shown.  That is the browser's doing, not the component's: [step]
    does not rely on it; the runs [staleClicks] and [quickWinClicks]
    below respect it. *)

Inductive Event : Type :=
  | ClickDrawPile (t : nat)
      (* the draw pile is clicked at time t *)
  | ClickCard (t : nat) (c : CardData)
      (* a card of the player's hand is clicked at time t *)
  | ClickSuit (t : nat) (s : Suit)
      (* a button of the suit selector is clicked at time t *)
  | ClickRestart (t : nat) (shuffled : list CardData)
      (* a restart button is clicked at time t; the shuffle gives [shuffled] *)
  | Tick.
      (* the earliest pending timer fires *)

(** A click at time [t] comes after every timer due by then. *)
Definition clickableAt (t : nat) (s : Sys) : bool :=
  Nat.leb (now s) t && forallb (fun d => Nat.ltb t (fst d)) (timers s).

Definition at_time (t : nat) (s : Sys) : Sys := mkSys (cur s) (timers s) t.

(** [isPlayable] as the player's hand passes it to [Card]:
    [turn === 'player' && status === 'playing' && canPlay(card)]. *)
Definition isPlayable (r : State) (c : CardData) : option bool :=
  if Turn_eqb (turn r) player && GameStatus_eqb (status r) playing
  then canPlay r c
  else Some false.

Definition step (batched : bool) (e : Event) (s : Sys) : option Sys :=
  match e with
  | ClickDrawPile t =>
      (* onClick={() => turn === 'player' && status === 'playing'
                         && drawCard('player')} *)
      if clickableAt t s then
        let s := at_time t s in
        if Turn_eqb (turn (cur s)) player
           && GameStatus_eqb (status (cur s)) playing
        then Some (commit (actions (drawCard (cur s) player)) s)
        else Some s
      else None
  | ClickCard t c =>
      (* playerHand.map(card => <Card isPlayable=... onClick={() =>
         playCard(card, 'player')} />), and in Card:
         onClick={isPlayable ? onClick : undefined} *)
      if clickableAt t s && existsb (CardData_eqb c) (playerHand (cur s)) then
        let s := at_time t s in
        match isPlayable (cur s) c with
        | Some true => Some (commit (actions (playCard (cur s) c player)) s)
        | Some false => Some s
        | None => None
        end
      else None
  | ClickSuit t su =>
      (* the selector is rendered when showSuitSelector holds *)
      if clickableAt t s && showSuitSelector (cur s) then
        let s := at_time t s in
        Some (commit (actions (handleSuitSelect (cur s) su)) s)
      else None
  | ClickRestart t shuffled =>
      if clickableAt t s && isFullDeck shuffled then
        let s := at_time t s in
        Some (commit (actions (initGame shuffled)) s)
      else None
  | Tick =>
      match timers s with
      | [] => None
      | (due, cb) :: rest =>
          let s := mkSys (cur s) rest (Nat.max (now s) due) in
          Some (commitTimer batched (actions (runCallback cb)) s)
      end
  end.

Fixpoint run (batched : bool) (es : list Event) (s : Sys) : option Sys :=
  match es with
  | [] => Some s
  | e :: es' =>
      match step batched e s with
      | Some s' => run batched es' s'
      | None => None
      end
  end.

(** Mounting: the hooks take their initial values and the mount effect
    calls [initGame]. *)
Definition boot (shuffled : list CardData) : Sys :=
  commit (actions (initGame shuffled)) (mkSys initialState [] 0).

(** The states the component can be in, from mounting on a shuffled full
    deck onwards. *)
Inductive reachable (batched : bool) : Sys -> Prop :=
  | reach_boot : forall d,
      isFullDeck d = true -> reachable batched (boot d)
  | reach_step : forall s e s',
      reachable batched s -> step batched e s = Some s' ->
      reachable batched s'.

(** * What is drawn on the screen *)

(** ** [SuitIcon] and [Card] ([src/components/Card.tsx]) *)

(** The four suit icons of the icon library. *)
Inductive Icon : Type := Heart | Diamond | Club | Spade.

(** The two colour classes the file uses: ["...-red-500"] and
    ["...-slate-800"]. *)
Inductive Tone : Type := red500 | slate800.

Record IconView : Type := mkIconView {
  glyph : Icon;
  glyphSize : nat;
  glyphTone : Tone      (* className="fill-T text-T" *)
}.

Definition SuitIcon (su : Suit) (size : nat) : IconView :=
  match su with
  | HEARTS => mkIconView Heart size red500
  | DIAMONDS => mkIconView Diamond size red500
  | CLUBS => mkIconView Club size slate800
  | SPADES => mkIconView Spade size slate800
  end.

(** A corner of a face-up card: the rank, in a colour, over a small
    suit icon. *)
Record Corner : Type := mkCorner {
  cornerTone : Tone;
  cornerRank : Rank;
  cornerIcon : IconView
}.

Record FaceView : Type := mkFaceView {
  topLeft : Corner;
  centre : IconView;
  bottomRight : Corner      (* drawn rotated by 180 degrees *)
}.

(** What [Card] hands to [motion.div]: whether the card lifts under the
    pointer, the click handler it installs, the two style switches of
    its class list, and its content, which is a face or the back
    pattern ([None]). *)
Record CardView : Type := mkCardView {
  whileHover : bool;
  viewOnClick : option (Eff unit);
  faceUpStyle : bool;      (* 'bg-white ...' or 'bg-indigo-600 ...' *)
  ringStyle : bool;        (* 'ring-4 ring-yellow-400 ring-offset-2' *)
  content : option FaceView
}.

(** The properties of [Card]; an optional one is [None] when the caller
    leaves it out. *)
Record CardProps : Type := mkCardProps {
  propCard : CardData;
  propIsFaceUp : option bool;
  propOnClick : option (Eff unit);
  propIsPlayable : option bool
}.

Definition Card (props : CardProps) : CardView :=
  let card := propCard props in
  let isFaceUp := match propIsFaceUp props with Some b => b | None => true end in
  let onClick := propOnClick props in
  let isPlayable :=
    match propIsPlayable props with Some b => b | None => false end in
  let isRed := Suit_eqb (suit card) HEARTS || Suit_eqb (suit card) DIAMONDS in
  let corner :=
    mkCorner (if isRed then red500 else slate800) (rank card)
             (SuitIcon (suit card) 14) in
  mkCardView
    isPlayable
    (if isPlayable then onClick else None)
    isFaceUp
    isPlayable
    (if isFaceUp
     then Some (mkFaceView corner (SuitIcon (suit card) 32) corner)
     else None).

(** ** The table as [App] draws it

    The cards of the two hands and of the discard pile.  The two
    placeholder cards of the table ([card={{} as any}], the back on the
    draw pile and the invisible spacer under the discard pile) carry no
    card and are left out. *)




(** [array.map(f)] for a callback that may throw. *)
Fixpoint mapE {A B : Type} (f : A -> option B) (l : list A) : option (list B) :=
  match l with
  | [] => Some []
  | x :: t =>
      match f x with
      | None => None
      | Some y =>
          match mapE f t with
          | None => None
          | Some t' => Some (y :: t')
          end
      end
  end.

(** The opponent's hand: [<Card card={card} isFaceUp={false} />]. *)
Definition renderAiHand (r : State) : list CardView :=
  map (fun card => Card (mkCardProps card (Some false) None None)) (aiHand r).



(** The player's hand: [<Card card={card} isPlayable={turn === 'player'
    && status === 'playing' && canPlay(card)} onClick={() =>
    playCard(card, 'player')} />].  [canPlay] runs during the render; a
    throw there is a failed render. *)
Definition renderPlayerHand (r : State) : option (list CardView) :=
  mapE (fun card =>
          match (if Turn_eqb (turn r) player
                    && GameStatus_eqb (status r) playing
                 then canPlay r card else Some false) with
          | Some playable =>
              Some (Card (mkCardProps card None
                            (Some (playCard r card player)) (Some playable)))
          | None => None
          end)
       (playerHand r).

(** The draw pile: its click handler, [() => turn === 'player' && status
    === 'playing' && drawCard('player')], and whether its class list
    has ['opacity-50 cursor-not-allowed']. *)
Definition drawPileOnClick (r : State) : Eff unit :=
  if Turn_eqb (turn r) player && GameStatus_eqb (status r) playing
  then drawCard r player
  else ret tt.

Definition drawPileDimmed (r : State) : bool :=
  negb (Turn_eqb (turn r) player)
  || negb (GameStatus_eqb (status r) playing).

(** The badge over the discard pile: one icon per value of
    [currentSuit], none for [null]. *)
Definition suitBadge (r : State) : option Icon :=
  match currentSuit r with
  | Some HEARTS => Some Heart
  | Some DIAMONDS => Some Diamond
  | Some CLUBS => Some Club
  | Some SPADES => Some Spade
  | None => None
  end.

(** The suit selector, drawn when [showSuitSelector] holds: one button
    per suit, with its click handler. *)
Definition renderSuitSelector (r : State) : option (list (Suit * Eff unit)) :=
  if showSuitSelector r
  then Some (map (fun su => (su, handleSuitSelect r su))
                 [HEARTS; DIAMONDS; CLUBS; SPADES])
  else None.

(** The heading of the game-over dialog, drawn when [status !==
    'playing']: ['Victory!'] for [player_won], ['Defeat'] otherwise. *)
Inductive Heading : Type := Victory | Defeat.

Definition renderGameOver (r : State) : option Heading :=
  if negb (GameStatus_eqb (status r) playing)
  then Some (if GameStatus_eqb (status r) player_won then Victory else Defeat)
  else None.

(** * Notions used in the statements *)

(** ** Cards, hands and containers *)

Definition isEight (c : CardData) : bool := Rank_eqb (rank c) EIGHT.

(** The hand of the side that acts. *)
Definition handOf (t : Turn) (r : State) : list CardData :=
  match t with player => playerHand r | ai => aiHand r end.

(** The four containers of a render. *)
Definition piles (r : State)
  : list CardData * list CardData * list CardData * list CardData :=
  (deck r, playerHand r, aiHand r, discardPile r).

(** Every card a render holds, container after container. *)
Definition allCards (r : State) : list CardData :=
  deck r ++ playerHand r ++ aiHand r ++ discardPile r.

Definition holds (r : State) (c : CardData) : bool :=
  existsb (CardData_eqb c) (allCards r).

(** The cards of [full] are spread over the four containers, each one
    once. *)
Definition partitioned (full : list CardData) (r : State) : Prop :=
  Permutation (allCards r) full.

(** [canPlay] as a test, for states where it cannot throw. *)
Definition playableb (r : State) (c : CardData) : bool :=
  match canPlay r c with Some b => b | None => false end.

(** A render with the thinking flag raised. *)
Definition thinking (r : State) : State :=
  mkState (deck r) (playerHand r) (aiHand r) (discardPile r) (currentSuit r)
    (turn r) (status r) (showSuitSelector r) (message r) true.

(** ** The opponent's choice of suit *)

(** The number of cards of suit [s] in a hand. *)
Definition tally (s : Suit) (hand : list CardData) : nat :=
  List.length (filter (fun c => Suit_eqb (suit c) s) hand).

(** [s] is a most frequent suit of the hand. *)
Definition mostFrequent (hand : list CardData) (s : Suit) : bool :=
  forallb (fun s' => Nat.leb (tally s' hand) (tally s hand)) suits.

(** The suit of the first card, in hand order, whose suit is a most
    frequent one; Spades for an empty hand. *)
Definition firstMostFrequent (hand : list CardData) : Suit :=
  match find (fun c => mostFrequent hand (suit c)) hand with
  | Some c => suit c
  | None => SPADES
  end.

(** The choice as the claim words it: the tally is taken over the cards
    left in the hand once the played card is out of it (same tie-break,
    Spades for an empty hand). *)
Definition claimedSuit (hand : list CardData) (played : CardData) : Suit :=
  bestSuit (filter (fun c => negb (String.eqb (id c) (id played))) hand).

(** ** Invariants of a run *)

(** The pile is not empty in the render that a pending decision of the
    opponent closes over. *)
Definition okCallback (cb : Callback) : Prop :=
  match cb with
  | CbAiTurn r => discardPile r <> []
  | _ => True
  end.

(** An action that keeps the discard piles non-empty. *)
Definition okAction (a : Action) : Prop :=
  match a with
  | SetDiscardPile l => l <> []
  | SetTimeout cb _ => okCallback cb
  | _ => True
  end.

(** The property carried along a run: the pile of the current render is
    not empty, and neither is the pile of a pending decision. *)
Definition okSys (s : Sys) : Prop :=
  discardPile (cur s) <> [] /\
  Forall (fun d => okCallback (snd d)) (timers s).

Definition isAiTurnTimer (d : nat * Callback) : bool :=
  match snd d with CbAiTurn _ => true | _ => false end.



(** ** Shapes of actions *)

(** An action that neither sets Status back to playing nor clears
    Active Suit. *)
Definition mild (a : Action) : Prop :=
  match a with
  | SetStatus g => g <> playing
  | SetCurrentSuit x => x <> None
  | _ => True
  end.

(** A mild action that leaves the thinking flag alone and registers no
    decision of the opponent. *)
Definition tame (a : Action) : Prop :=
  match a with
  | SetStatus g => g <> playing
  | SetCurrentSuit x => x <> None
  | SetIsAiThinking _ => False
  | SetTimeout (CbAiTurn _) _ => False
  | _ => True
  end.


(** The number of decisions of the opponent that are pending. *)
Definition pendingDecisions (s : Sys) : nat :=
  List.length (filter isAiTurnTimer (timers s)).

(** The re-entry guard: the thinking flag is up exactly while one
    decision is pending, and no second one is. *)
Definition guarded (s : Sys) : Prop :=
  pendingDecisions s = if isAiThinking (cur s) then 1 else 0.

Definition isRestart (e : Event) : bool :=
  match e with ClickRestart _ _ => true | _ => false end.

(** A run in which the player never restarts. *)
Definition noRestart (es : list Event) : bool :=
  forallb (fun e => negb (isRestart e)) es.

(** An action that does not clear Active Suit. *)
Definition keepsSuit (a : Action) : Prop :=
  match a with
  | SetCurrentSuit x => x <> None
  | _ => True
  end.

(** ** Views *)

(** The back of a card: no lift, no click, no highlight, no face. *)
Definition cardBack : CardView := mkCardView false None false false None.

Definition isRedSuit (su : Suit) : bool :=
  Suit_eqb su HEARTS || Suit_eqb su DIAMONDS.

(** ** Sample decks, states and runs *)

(** A shuffled deck given by its first cards; the rest follow in the
    order of [createDeck]. *)
Definition arrange (front : list CardData) : list CardData :=
  front ++ filter (fun c => negb (existsb (CardData_eqb c) front)) createDeck.

Definition reversedDeck : list CardData := rev createDeck.

Definition withAiHand (hand : list CardData) (r : State) : State :=
  mkState (deck r) (playerHand r) hand (discardPile r) (currentSuit r)
    (turn r) (status r) (showSuitSelector r) (message r) (isAiThinking r).

(** The opponent to move on a 7 of Diamonds, holding an Eight, two
    Clubs and the King of Diamonds. *)
Definition midGame : State :=
  mkState [cardOf ACE SPADES; cardOf TWO SPADES]
          [cardOf THREE HEARTS]
          [cardOf EIGHT HEARTS; cardOf TWO CLUBS; cardOf KING DIAMONDS;
           cardOf SEVEN CLUBS]
          [cardOf NINE DIAMONDS; cardOf SEVEN DIAMONDS]
          (Some DIAMONDS) ai playing false MsgYourTurn false.


(** The player is dealt Ace of Hearts, 8 of Spades, 2 of Diamonds and
    five Clubs; the opponent King and Queen of Spades, King of Clubs and
    five Diamonds; the 9 of Hearts is the first discard. *)
Definition staleDeck : list CardData := arrange
  [cardOf ACE HEARTS; cardOf EIGHT SPADES; cardOf TWO DIAMONDS;
   cardOf THREE CLUBS; cardOf FOUR CLUBS; cardOf FIVE CLUBS;
   cardOf SIX CLUBS; cardOf SEVEN CLUBS;
   cardOf KING SPADES; cardOf QUEEN SPADES; cardOf KING CLUBS;
   cardOf THREE DIAMONDS; cardOf FOUR DIAMONDS; cardOf FIVE DIAMONDS;
   cardOf SIX DIAMONDS; cardOf SEVEN DIAMONDS;
   cardOf NINE HEARTS].

(** The player plays the Ace of Hearts at 0 ms and the 8 of Spades at
    100 ms, which opens the suit selector; the hand-over timer of the
    Ace fires at 1000 ms and the opponent's decision at 3000 ms (it plays
    the King of Spades); the player picks Diamonds at 3500 ms; the Turn
    comes back at 4000 ms and the player plays the 2 of Diamonds at
    4200 ms. *)
Definition staleClicks : list Event :=
  [ClickCard 0 (cardOf ACE HEARTS);
   ClickCard 100 (cardOf EIGHT SPADES);
   Tick; Tick;
   ClickSuit 3500 DIAMONDS;
   Tick;
   ClickCard 4200 (cardOf TWO DIAMONDS)].

(** The player is dealt seven Hearts and the 8 of Spades; the opponent
    holds the King of Spades first; the 9 of Hearts is the first
    discard. *)
Definition quickWinDeck : list CardData := arrange
  [cardOf ACE HEARTS; cardOf TWO HEARTS; cardOf THREE HEARTS;
   cardOf FOUR HEARTS; cardOf FIVE HEARTS; cardOf SIX HEARTS;
   cardOf SEVEN HEARTS; cardOf EIGHT SPADES;
   cardOf KING SPADES; cardOf QUEEN SPADES; cardOf KING CLUBS;
   cardOf THREE DIAMONDS; cardOf FOUR DIAMONDS; cardOf FIVE DIAMONDS;
   cardOf SIX DIAMONDS; cardOf SEVEN DIAMONDS;
   cardOf NINE HEARTS].

(** The player empties the hand within 700 ms, the Turn still being the
    player's until the first hand-over timer fires at 1000 ms; that timer
    starts the opponent's thinking timer, due at 3000 ms; the other six
    hand-over timers fire; the player picks Hearts at 1700 ms, and the
    win check that follows at 2700 ms sets Status to player_won. *)
Definition quickWinClicks : list Event :=
  [ClickCard 0 (cardOf ACE HEARTS);
   ClickCard 100 (cardOf TWO HEARTS);
   ClickCard 200 (cardOf THREE HEARTS);
   ClickCard 300 (cardOf FOUR HEARTS);
   ClickCard 400 (cardOf FIVE HEARTS);
   ClickCard 500 (cardOf SIX HEARTS);
   ClickCard 600 (cardOf SEVEN HEARTS);
   ClickCard 700 (cardOf EIGHT SPADES);
   Tick; Tick; Tick; Tick; Tick; Tick; Tick;
   ClickSuit 1700 HEARTS;
   Tick].

(** On [staleDeck]: the player plays the Ace of Hearts at 0 ms; the
    hand-over timer fires at 1000 ms and the opponent starts thinking;
    the player restarts at 2000 ms, the shuffle giving [quickWinDeck];
    the thinking timer of the first game fires at 3000 ms. *)
Definition restartClicks : list Event :=
  [ClickCard 0 (cardOf ACE HEARTS);
   Tick;
   ClickRestart 2000 quickWinDeck;
   Tick].

(** The player has won; a decision of the opponent, registered on the
    render [midGame], is still pending. *)
Definition wonGame : Sys :=
  mkSys (mkState [cardOf ACE SPADES] [] [cardOf TWO CLUBS]
           [cardOf TWO SPADES] (Some SPADES) player player_won false
           MsgPlayerWon true)
        [(3000, CbAiTurn midGame)] 0.


(** * Properties *)

(** ** Equality tests *)

Lemma Suit_eqb_eq : forall a b, Suit_eqb a b = true <-> a = b.
Proof. intros [] []; simpl; split; congruence. Qed.

Lemma Rank_eqb_eq : forall a b, Rank_eqb a b = true <-> a = b.
Proof. intros [] []; simpl; split; congruence. Qed.

Lemma Rank_eqb_neq : forall a b, Rank_eqb a b = false <-> a <> b.
Proof. intros [] []; simpl; split; congruence. Qed.

Lemma suit_is_eq : forall s cur, suit_is s cur = true <-> cur = Some s.
Proof.
  intros s [s'|]; simpl; [|split; discriminate].
  rewrite Suit_eqb_eq. split; congruence.
Qed.

Lemma lastOf_app : forall (A : Type) (l : list A) (x : A),
  lastOf (l ++ [x]) = Some x.
Proof.
  induction l as [|a l IH]; intros x; [reflexivity|].
  simpl. rewrite IH. destruct (l ++ [x]) eqn:E; [|reflexivity].
  destruct l; discriminate.
Qed.

Lemma lastOf_None : forall (A : Type) (l : list A),
  lastOf l = None <-> l = [].
Proof.
  induction l as [|a l IH]; simpl; [tauto|].
  destruct l; [split; discriminate|].
  rewrite IH. split; discriminate.
Qed.

Lemma lastOf_removelast : forall (A : Type) (l : list A) (x : A),
  lastOf l = Some x -> l = removelast l ++ [x].
Proof.
  induction l as [|a l IH]; intros x H; [discriminate|].
  destruct l as [|b l]; [simpl in *; congruence|].
  change (a :: b :: l = a :: (removelast (b :: l) ++ [x])).
  f_equal. apply IH. exact H.
Qed.

(** ** The legality rule *)

Lemma canPlay_top : forall r pile top c,
  discardPile r = pile ++ [top] ->
  canPlay r c =
    Some (Rank_eqb (rank c) EIGHT || suit_is (suit c) (currentSuit r)
          || Rank_eqb (rank c) (rank top)).
Proof.
  intros r pile top c H. unfold canPlay. rewrite H, lastOf_app.
  destruct (Rank_eqb (rank c) EIGHT); [reflexivity|].
  destruct (suit_is (suit c) (currentSuit r)); reflexivity.
Qed.

(** C1.  With [top] the top card of the discard pile, [canPlay] returns a
    value for every card, and returns [true] exactly when the card's rank
    is Eight, or its suit is the Active Suit, or its rank is the rank of
    [top]; each of the three conditions is enough on its own.  With
    Active Suit Diamonds and a Seven on top: the Seven of Clubs and the
    King of Diamonds are playable, the King of Clubs is not, and every
    Eight is. *)
Theorem C1_canPlay_legality :
  (forall dk ph ah pile top cs t st sel m th c,
     let r := mkState dk ph ah (pile ++ [top]) cs t st sel m th in
     (exists b, canPlay r c = Some b) /\
     (canPlay r c = Some true <->
        rank c = EIGHT \/ cs = Some (suit c) \/ rank c = rank top)) /\
  (forall dk ph ah pile i su t st sel m th,
     let r := mkState dk ph ah (pile ++ [mkCard i su SEVEN]) (Some DIAMONDS)
                t st sel m th in
     (forall j, canPlay r (mkCard j CLUBS SEVEN) = Some true) /\
     (forall j, canPlay r (mkCard j DIAMONDS KING) = Some true) /\
     (forall j, canPlay r (mkCard j CLUBS KING) = Some false) /\
     (forall j s, canPlay r (mkCard j s EIGHT) = Some true)).
Proof.
  split.
  - intros dk ph ah pile top cs t st sel m th c r.
    assert (E := canPlay_top r pile top c eq_refl). simpl in E.
    split; [eexists; exact E|].
    rewrite E. split.
    + intros H. injection H as H.
      apply orb_true_iff in H as [H|H];
        [apply orb_true_iff in H as [H|H]|].
      * left. apply Rank_eqb_eq, H.
      * right; left. apply suit_is_eq, H.
      * right; right. apply Rank_eqb_eq, H.
    + intros [H|[H|H]]; f_equal.
      * apply Rank_eqb_eq in H. rewrite H. reflexivity.
      * apply suit_is_eq in H. rewrite H, orb_true_r. reflexivity.
      * apply Rank_eqb_eq in H. rewrite H, orb_true_r. reflexivity.
  - intros dk ph ah pile i su t st sel m th r.
    repeat split; intros;
      rewrite (canPlay_top r pile (mkCard i su SEVEN) _ eq_refl);
      reflexivity.
Qed.

(** ** Full decks *)

Lemma existsb_face : forall f l,
  existsb (face_eqb f) l = true -> In f l.
Proof.
  intros f l H. apply existsb_exists in H as [g [Hin Hg]].
  unfold face_eqb in Hg. apply andb_true_iff in Hg as [H1 H2].
  apply Suit_eqb_eq in H1. apply Rank_eqb_eq in H2.
  destruct f, g; simpl in *; subst; exact Hin.
Qed.

Lemma nodupb_ids : forall l, nodupb String.eqb l = true -> NoDup l.
Proof.
  induction l as [|x t IH]; simpl; intros H; [constructor|].
  apply andb_true_iff in H as [H1 H2]. constructor; [|auto].
  intros Hin. apply negb_true_iff in H1.
  assert (existsb (String.eqb x) t = true); [|congruence].
  apply existsb_exists. exists x. split; [exact Hin|apply String.eqb_refl].
Qed.

Lemma NoDup_allFaces : NoDup allFaces.
Proof.
  unfold allFaces, suits, ranks; simpl.
  repeat (constructor; [simpl; intuition discriminate|]). constructor.
Qed.

Lemma isFullDeck_length : forall d, isFullDeck d = true -> List.length d = 52.
Proof.
  unfold isFullDeck. intros d H.
  apply andb_true_iff in H as [H _]. apply andb_true_iff in H as [_ H].
  apply Nat.eqb_eq, H.
Qed.

Lemma isFullDeck_ids : forall d, isFullDeck d = true -> NoDup (map id d).
Proof.
  unfold isFullDeck. intros d H.
  apply andb_true_iff in H as [H _]. apply andb_true_iff in H as [H _].
  apply nodupb_ids, H.
Qed.

Lemma isFullDeck_faces : forall d,
  isFullDeck d = true -> Permutation allFaces (map face d).
Proof.
  intros d H. pose proof (isFullDeck_length d H) as Hlen.
  unfold isFullDeck in H. apply andb_true_iff in H as [_ H].
  apply NoDup_Permutation_bis.
  - apply NoDup_allFaces.
  - rewrite length_map, Hlen. reflexivity.
  - intros f Hf. rewrite forallb_forall in H. apply existsb_face, H, Hf.
Qed.

Lemma Permutation_filter_length : forall (A : Type) (p : A -> bool) (l l' : list A),
  Permutation l l' -> List.length (filter p l) = List.length (filter p l').
Proof.
  intros A p l l' H; induction H; simpl.
  - reflexivity.
  - destruct (p x); simpl; congruence.
  - destruct (p x), (p y); reflexivity.
  - congruence.
Qed.

Lemma filter_face_length : forall d,
  List.length (filter isEight d)
  = List.length (filter (fun f => Rank_eqb (snd f) EIGHT) (map face d)).
Proof.
  induction d as [|c d IH]; [reflexivity|].
  simpl. unfold isEight at 1. destruct (Rank_eqb (rank c) EIGHT); simpl; congruence.
Qed.

Lemma isFullDeck_four_eights : forall d,
  isFullDeck d = true -> List.length (filter isEight d) = 4.
Proof.
  intros d H. rewrite filter_face_length.
  rewrite <- (Permutation_filter_length _ _ _ _ (isFullDeck_faces d H)).
  reflexivity.
Qed.

Lemma filter_length_le : forall (A : Type) (p : A -> bool) (l : list A),
  List.length (filter p l) <= List.length l.
Proof.
  induction l as [|x l IH]; simpl; [lia|]. destruct (p x); simpl; lia.
Qed.

(** The scan of [initGame]: what it finds, and when it runs off the end. *)
Lemma firstNonEight_Some : forall l i,
  firstNonEight l = Some i ->
  exists pre fd post,
    l = pre ++ fd :: post /\ List.length pre = i /\
    forallb isEight pre = true /\ isEight fd = false.
Proof.
  induction l as [|c l IH]; intros i H; [discriminate|].
  simpl in H. destruct (Rank_eqb (rank c) EIGHT) eqn:E.
  - destruct (firstNonEight l) as [j|] eqn:Ej; [|discriminate].
    injection H as <-. destruct (IH j eq_refl) as (pre & fd & post & H1 & H2 & H3 & H4).
    exists (c :: pre), fd, post. subst l. simpl. unfold isEight at 1.
    rewrite E, H2, H3. auto.
  - injection H as <-. exists [], c, l. unfold isEight. auto.
Qed.

Lemma firstNonEight_None : forall l,
  firstNonEight l = None -> filter isEight l = l.
Proof.
  induction l as [|c l IH]; intros H; [reflexivity|].
  simpl in H. simpl. unfold isEight at 1.
  destruct (Rank_eqb (rank c) EIGHT); [|discriminate].
  destruct (firstNonEight l); [discriminate|]. rewrite IH; reflexivity.
Qed.

Lemma firstNonEight_full : forall d,
  isFullDeck d = true -> exists i, firstNonEight (skipn 8 (skipn 8 d)) = Some i.
Proof.
  intros d H. destruct (firstNonEight (skipn 8 (skipn 8 d))) as [i|] eqn:E;
    [eauto|exfalso].
  apply firstNonEight_None in E.
  pose proof (isFullDeck_four_eights d H) as H4.
  pose proof (isFullDeck_length d H) as H52.
  rewrite <- (firstn_skipn 8 d) in H4.
  rewrite <- (firstn_skipn 8 (skipn 8 d)) in H4.
  rewrite !filter_app, !length_app, E, !length_skipn in H4. lia.
Qed.

(** ** Setup *)

Lemma initGame_actions : forall d pre fd post,
  skipn 8 (skipn 8 d) = pre ++ fd :: post ->
  forallb isEight pre = true -> isEight fd = false ->
  initGame d =
    emit [SetDeck (pre ++ post);
          SetPlayerHand (firstn 8 d);
          SetAiHand (firstn 8 (skipn 8 d));
          SetDiscardPile [fd];
          SetCurrentSuit (Some (suit fd));
          SetTurn player;
          SetStatus playing;
          SetMessage MsgYourTurn;
          SetShowSuitSelector false;
          SetIsAiThinking false].
Proof.
  intros d pre fd post Hd Hpre Hfd.
  assert (Hi : firstNonEight (pre ++ fd :: post) = Some (List.length pre)).
  { clear Hd. induction pre as [|c pre IH]; simpl.
    - unfold isEight in Hfd. rewrite Hfd. reflexivity.
    - simpl in Hpre. apply andb_true_iff in Hpre as [Hc Hpre].
      unfold isEight in Hc. rewrite Hc, (IH Hpre). reflexivity. }
  unfold initGame. rewrite Hd, Hi.
  unfold lift, bind.
  rewrite nth_error_app2, Nat.sub_diag by lia. simpl nth_error. cbv iota beta.
  rewrite firstn_app, Nat.sub_diag, firstn_all, firstn_O, app_nil_r.
  replace (S (List.length pre)) with (List.length (pre ++ [fd]))
    by (rewrite length_app; simpl; lia).
  replace (pre ++ fd :: post) with ((pre ++ [fd]) ++ post)
    by (rewrite <- app_assoc; reflexivity).
  rewrite skipn_app, skipn_all, Nat.sub_diag. reflexivity.
Qed.

(** C2.  Setup from a shuffled full deck [d], on load or on restart
    (whatever the state [s0] before): [initGame] does not throw; the
    player holds the first 8 cards of [d] and the opponent the next 8;
    the initial discard is the first card of the remaining 36 that is not
    an Eight; it is taken out of the deck; Active Suit is its suit; Turn
    is player and Status is playing. *)
Theorem C2_initGame_setup : forall d s0,
  isFullDeck d = true ->
  let s := commit (actions (initGame d)) s0 in
  threw (initGame d) = false /\
  playerHand (cur s) = firstn 8 d /\
  aiHand (cur s) = firstn 8 (skipn 8 d) /\
  (exists pre fd post,
     skipn 16 d = pre ++ fd :: post /\
     Forall (fun c => rank c = EIGHT) pre /\
     rank fd <> EIGHT /\
     discardPile (cur s) = [fd] /\
     deck (cur s) = pre ++ post /\
     currentSuit (cur s) = Some (suit fd)) /\
  turn (cur s) = player /\
  status (cur s) = playing.
Proof.
  intros d s0 H s.
  destruct (firstNonEight_full d H) as [i Hi].
  destruct (firstNonEight_Some _ _ Hi) as (pre & fd & post & Hd & _ & Hpre & Hfd).
  pose proof (initGame_actions d pre fd post Hd Hpre Hfd) as E.
  assert (Hcur : cur s =
    mkState (pre ++ post) (firstn 8 d) (firstn 8 (skipn 8 d)) [fd]
      (Some (suit fd)) player playing false MsgYourTurn false).
  { subst s. rewrite E. unfold commit, emit, actions, fst.
    match goal with |- cur (if ?b then _ else _) = _ => destruct b end;
      reflexivity. }
  rewrite E, Hcur. simpl.
  repeat split; try reflexivity.
  exists pre, fd, post. rewrite skipn_skipn in Hd. simpl in Hd.
  repeat split; try reflexivity; try exact Hd.
  - apply Forall_forall. intros c Hc. rewrite forallb_forall in Hpre.
    apply Rank_eqb_eq, (Hpre c Hc).
  - apply Rank_eqb_neq, Hfd.
Qed.

Lemma C2_initGame_setup_witness :
  isFullDeck reversedDeck = true /\
  playerHand (cur (boot reversedDeck)) = firstn 8 reversedDeck /\
  status (cur (boot reversedDeck)) = playing.
Proof.
  split; [vm_compute; reflexivity|].
  destruct (C2_initGame_setup reversedDeck (mkSys initialState [] 0))
    as (_ & H1 & _ & _ & _ & H5); [vm_compute; reflexivity|].
  split; assumption.
Defined.

(** ** The opponent's choice of suit *)

(** C3.  What [playCard] does when the opponent plays an Eight: the
    tally runs over [aiHand] as the render holds it, that is with the
    played Eight still in it, so Active Suit becomes
    [bestSuit (aiHand r)].  From the hand (8 of Hearts, King of Spades) the
    code chooses Hearts where the remaining hand holds only a Spade; from
    the hand (8 of Hearts) alone it chooses Hearts where the remaining
    hand is empty and the claim gives Spades. *)
Theorem C3_ai_eight_counts_played_card :
  (forall s i su,
     currentSuit (cur (exec (playCard (cur s) (mkCard i su EIGHT) ai) s))
     = Some (bestSuit (aiHand (cur s)))) /\
  (let e := cardOf EIGHT HEARTS in
   let hand := [e; cardOf KING SPADES] in
   let s := mkSys (withAiHand hand initialState) [] 0 in
   filter (fun c => negb (String.eqb (id c) (id e))) hand = [cardOf KING SPADES] /\
   currentSuit (cur (exec (playCard (cur s) e ai) s)) = Some HEARTS /\
   claimedSuit hand e = SPADES) /\
  (let e := cardOf EIGHT HEARTS in
   let hand := [e] in
   let s := mkSys (withAiHand hand initialState) [] 0 in
   filter (fun c => negb (String.eqb (id c) (id e))) hand = [] /\
   currentSuit (cur (exec (playCard (cur s) e ai) s)) = Some HEARTS /\
   claimedSuit hand e = SPADES).
Proof.
  split; [|split].
  - intros s i su. reflexivity.
  - vm_compute. auto.
  - vm_compute. auto.
Qed.

Lemma Suit_eq_dec : forall a b : Suit, {a = b} + {a <> b}.
Proof. decide equality. Defined.

Lemma Suit_eqb_refl : forall s, Suit_eqb s s = true.
Proof. intros []; reflexivity. Qed.

Lemma Suit_eqb_sym : forall a b, Suit_eqb a b = Suit_eqb b a.
Proof. intros [] []; reflexivity. Qed.

Lemma countOf_bump : forall counts s s',
  countOf (bump s counts) s'
  = countOf counts s' + (if Suit_eqb s s' then 1 else 0).
Proof.
  induction counts as [|[k n] counts IH]; intros s s'; simpl.
  - rewrite Suit_eqb_sym. destruct (Suit_eqb s' s); reflexivity.
  - destruct (Suit_eqb k s) eqn:E; simpl.
    + apply Suit_eqb_eq in E. subst k.
      destruct (Suit_eqb s s'); lia.
    + destruct (Suit_eqb k s') eqn:E'; [|apply IH].
      apply Suit_eqb_eq in E'. subst k. rewrite Suit_eqb_sym, E. lia.
Qed.

Lemma countOf_fold : forall hand counts s,
  countOf (fold_left (fun acc c => bump (suit c) acc) hand counts) s
  = countOf counts s + tally s hand.
Proof.
  induction hand as [|c hand IH]; intros counts s; simpl.
  - unfold tally. simpl. lia.
  - rewrite IH, countOf_bump. unfold tally. simpl.
    destruct (Suit_eqb (suit c) s); simpl; lia.
Qed.

Lemma countOf_suitCounts : forall hand s,
  countOf (suitCounts hand) s = tally s hand.
Proof. intros. unfold suitCounts. rewrite countOf_fold. reflexivity. Qed.

Lemma keys_bump : forall counts s,
  map fst (bump s counts)
  = if existsb (fun k => Suit_eqb k s) (map fst counts)
    then map fst counts else map fst counts ++ [s].
Proof.
  induction counts as [|[k n] counts IH]; intros s; simpl; [reflexivity|].
  destruct (Suit_eqb k s); simpl; [reflexivity|].
  rewrite IH. destruct (existsb _ _); reflexivity.
Qed.

Lemma find_app : forall (A : Type) (p : A -> bool) (l l' : list A),
  find p (l ++ l') = match find p l with Some x => Some x | None => find p l' end.
Proof.
  induction l as [|x l IH]; intros l'; simpl; [reflexivity|].
  destruct (p x); [reflexivity|apply IH].
Qed.

(** The keys of the tally come in the order in which their suits first
    show up in the hand. *)
Lemma find_keys_fold : forall (P : Suit -> bool) hand counts,
  find P (map fst (fold_left (fun acc c => bump (suit c) acc) hand counts))
  = match find P (map fst counts) with
    | Some k => Some k
    | None => option_map suit (find (fun c => P (suit c)) hand)
    end.
Proof.
  intros P. induction hand as [|c hand IH]; intros counts; simpl.
  - destruct (find P (map fst counts)); reflexivity.
  - rewrite IH, keys_bump.
    destruct (existsb (fun k => Suit_eqb k (suit c)) (map fst counts)) eqn:E.
    + destruct (find P (map fst counts)) eqn:F; [reflexivity|].
      apply existsb_exists in E as [k [Hk E]]. apply Suit_eqb_eq in E. subst k.
      rewrite (find_none _ _ F _ Hk). reflexivity.
    + rewrite find_app. destruct (find P (map fst counts)); [reflexivity|].
      simpl. destruct (P (suit c)); reflexivity.
Qed.

Lemma countOf_absent : forall counts s,
  ~ In s (map fst counts) -> countOf counts s = 0.
Proof.
  induction counts as [|[k n] counts IH]; intros s H; simpl; [reflexivity|].
  destruct (Suit_eqb k s) eqn:E.
  - apply Suit_eqb_eq in E. subst k. exfalso. apply H. left. reflexivity.
  - apply IH. intros Hin. apply H. right. exact Hin.
Qed.

(** The head of the sorted keys: the first key that no other key beats. *)
Lemma sortBy_head : forall (f : Suit -> nat) (keys : list Suit),
  match sortBy (fun a b => Nat.ltb (f a) (f b)) keys with
  | [] => keys = []
  | b :: _ =>
      exists pre post,
        keys = pre ++ b :: post /\
        (forall k, In k keys -> f k <= f b) /\
        (forall k, In k pre -> f k < f b)
  end.
Proof.
  intros f. induction keys as [|a keys IH]; [reflexivity|].
  unfold sortBy in *. simpl.
  destruct (fold_right _ [] keys) as [|b sorted].
  - subst keys. simpl. exists [], []. repeat split.
    + intros k [<-|[]]. lia.
    + intros k [].
  - destruct IH as (pre & post & Hk & Hmax & Hpre). simpl.
    destruct (Nat.ltb (f a) (f b)) eqn:E.
    + apply Nat.ltb_lt in E. exists (a :: pre), post. subst keys.
      repeat split.
      * intros k [<-|Hin]; [lia|apply Hmax, Hin].
      * intros k [<-|Hin]; [exact E|apply Hpre, Hin].
    + apply Nat.ltb_ge in E. exists [], keys. repeat split.
      * intros k [<-|Hin]; [lia|]. specialize (Hmax k Hin). lia.
      * intros k [].
Qed.

(** X3.  The suit the opponent's tally, sort and default produce for a
    hand is the suit of the first card, in hand order, whose suit is
    held at least as often as every other suit; it is Spades for an
    empty hand. *)
Theorem bestSuit_first_most_frequent : forall hand,
  bestSuit hand = firstMostFrequent hand.
Proof.
  intros hand. unfold bestSuit, firstMostFrequent.
  pose proof (find_keys_fold (mostFrequent hand) hand []) as Hfind.
  simpl in Hfind. fold (suitCounts hand) in Hfind.
  assert (Hopt : match find (fun c => mostFrequent hand (suit c)) hand with
                 | Some c => suit c | None => SPADES end
               = match find (mostFrequent hand) (map fst (suitCounts hand)) with
                 | Some k => k | None => SPADES end).
  { rewrite Hfind. destruct (find _ hand); reflexivity. }
  rewrite Hopt. clear Hopt Hfind.
  pose proof (sortBy_head (countOf (suitCounts hand)) (map fst (suitCounts hand)))
    as Hhead.
  unfold byCountDesc.
  destruct (sortBy _ (map fst (suitCounts hand))) as [|b sorted].
  - rewrite Hhead. reflexivity.
  - destruct Hhead as (pre & post & Hk & Hmax & Hpre).
    assert (Hb : mostFrequent hand b = true).
    { unfold mostFrequent. apply forallb_forall. intros s _.
      apply Nat.leb_le. rewrite <- !countOf_suitCounts.
      destruct (in_dec Suit_eq_dec s (map fst (suitCounts hand))) as [Hin|Hout].
      - apply Hmax, Hin.
      - rewrite (countOf_absent _ _ Hout). lia. }
    rewrite Hk, find_app.
    destruct (find (mostFrequent hand) pre) as [k|] eqn:F.
    + exfalso. apply find_some in F as [Hin Hm].
      specialize (Hpre k Hin). unfold mostFrequent in Hm.
      rewrite forallb_forall in Hm.
      assert (Hbs : In b suits) by (destruct b; simpl; auto).
      specialize (Hm b Hbs). apply Nat.leb_le in Hm.
      rewrite <- !countOf_suitCounts in Hm. lia.
    + simpl. rewrite Hb. reflexivity.
Qed.

(** ** What rendering adds to a batch of updates *)

Lemma exec_aiTurnEffect : forall r s,
  exec (aiTurnEffect r) s = s \/
  (turn r = ai /\ status r = playing /\ isAiThinking r = false /\
   exec (aiTurnEffect r) s =
     mkSys (thinking (cur s))
           (schedule (now s + 2000) (CbAiTurn r) (timers s)) (now s)).
Proof.
  intros r s. unfold aiTurnEffect.
  destruct (turn r), (status r), (isAiThinking r); simpl; auto 10.
Qed.

Lemma commit_cases : forall acts s,
  let s' := applyActions acts s in
  commit acts s = s' \/
  (turn (cur s') = ai /\ status (cur s') = playing /\
   commit acts s =
     mkSys (thinking (cur s'))
           (schedule (now s' + 2000) (CbAiTurn (cur s')) (timers s')) (now s')).
Proof.
  intros acts s s'. unfold commit. fold s'.
  destruct (depsChanged _ _ _); [|auto].
  destruct (exec_aiTurnEffect (cur s') s') as [E|(H1 & H2 & _ & E)];
    rewrite E; auto.
Qed.

Lemma applyAction_now : forall s a, now (applyAction s a) = now s.
Proof. intros s []; reflexivity. Qed.

Lemma applyActions_now : forall acts s, now (applyActions acts s) = now s.
Proof.
  induction acts as [|a acts IH]; intros s; [reflexivity|].
  unfold applyActions in *. simpl. rewrite IH. apply applyAction_now.
Qed.

Lemma commit_now : forall acts s, now (commit acts s) = now s.
Proof.
  intros acts s. destruct (commit_cases acts s) as [E|(_ & _ & E)];
    rewrite E; simpl; apply applyActions_now.
Qed.

Lemma commitEach_now : forall acts s, now (commitEach acts s) = now s.
Proof.
  induction acts as [|a acts IH]; intros s; [reflexivity|].
  unfold commitEach in *. simpl. rewrite IH. apply commit_now.
Qed.

Lemma commitTimer_now : forall batched acts s,
  now (commitTimer batched acts s) = now s.
Proof. intros [] acts s; [apply commit_now|apply commitEach_now]. Qed.

(** ** Drawing *)

Lemma drawCard_player_actions : forall r rest drawn ok,
  deck r = rest ++ [drawn] ->
  canPlay r drawn = Some ok ->
  drawCard r player =
    emit ([SetDeck rest;
           SetPlayerHand (playerHand r ++ [drawn]);
           SetMessage MsgYouDrew]
          ++ (if ok then [] else [SetTimeout (CbSetTurn ai) 1000])).
Proof.
  intros r rest drawn ok Hd Hc. unfold drawCard.
  rewrite Hd, lastOf_app, removelast_last, Hc.
  destruct ok; reflexivity.
Qed.

Lemma drawCard_ai_actions : forall r rest drawn,
  deck r = rest ++ [drawn] ->
  drawCard r ai =
    emit [SetDeck rest; SetAiHand (aiHand r ++ [drawn]); SetMessage MsgAiDrew].
Proof.
  intros r rest drawn Hd. unfold drawCard.
  rewrite Hd, lastOf_app, removelast_last. reflexivity.
Qed.

Lemma drawCard_empty_actions : forall r target,
  deck r = [] ->
  drawCard r target = emit [SetMessage MsgDeckEmpty; SetTurn (other target)].
Proof. intros r target Hd. unfold drawCard. rewrite Hd. reflexivity. Qed.

(** A pending [() => setTurn(t)] hands the Turn to [t] when it fires. *)
Lemma fire_CbSetTurn : forall batched s due t rest,
  timers s = (due, CbSetTurn t) :: rest ->
  exists s', step batched Tick s = Some s' /\
             now s' = Nat.max (now s) due /\ turn (cur s') = t.
Proof.
  intros batched s due t rest H. unfold step. rewrite H.
  eexists. split; [reflexivity|]. split; [apply commitTimer_now|].
  assert (E : commitTimer batched (actions (runCallback (CbSetTurn t)))
                (mkSys (cur s) rest (Nat.max (now s) due))
              = commit [SetTurn t] (mkSys (cur s) rest (Nat.max (now s) due)))
    by (destruct batched; reflexivity).
  rewrite E.
  destruct (commit_cases [SetTurn t] (mkSys (cur s) rest (Nat.max (now s) due)))
    as [E'|(_ & _ & E')]; rewrite E'; reflexivity.
Qed.

Lemma aiTurnEffect_idle : forall r,
  turn r = player \/ status r <> playing \/ isAiThinking r = true ->
  aiTurnEffect r = ret tt.
Proof.
  intros r H. unfold aiTurnEffect.
  destruct (turn r), (status r), (isAiThinking r); simpl; try reflexivity;
    destruct H as [H|[H|H]]; congruence.
Qed.

Lemma commit_idle : forall acts s,
  (let r := cur (applyActions acts s) in
   turn r = player \/ status r <> playing \/ isAiThinking r = true) ->
  commit acts s = applyActions acts s.
Proof.
  intros acts s H. unfold commit.
  destruct (depsChanged _ _ _); [|reflexivity].
  rewrite (aiTurnEffect_idle _ H). reflexivity.
Qed.

(** C4.  The player clicks the draw pile while holding the Turn, with
    Status playing and a deck whose last card is [drawn]: the card moves
    from the deck to the player's hand and the Turn is still the
    player's when the handler returns.  When [canPlay] (on the state at
    the click) rejects the drawn card, a timer [() => setTurn('ai')] is
    registered for 1000 ms later, and firing it gives the Turn to the
    opponent; when [canPlay] accepts it, no timer is registered. *)
Theorem C4_player_draw_turn : forall batched s t rest drawn ok,
  clickableAt t s = true ->
  turn (cur s) = player ->
  status (cur s) = playing ->
  deck (cur s) = rest ++ [drawn] ->
  canPlay (cur s) drawn = Some ok ->
  exists s',
    step batched (ClickDrawPile t) s = Some s' /\
    deck (cur s') = rest /\
    playerHand (cur s') = playerHand (cur s) ++ [drawn] /\
    turn (cur s') = player /\
    (ok = true -> timers s' = timers s) /\
    (ok = false ->
       timers s' = schedule (t + 1000) (CbSetTurn ai) (timers s) /\
       (timers s = [] ->
        exists s'', step batched Tick s' = Some s'' /\
                    now s'' = t + 1000 /\ turn (cur s'') = ai)).
Proof.
  intros batched s t rest drawn ok Hclick Hturn Hstatus Hdeck Hcan.
  set (s1 := commit (actions (drawCard (cur s) player)) (at_time t s)).
  assert (Hstep : step batched (ClickDrawPile t) s = Some s1).
  { unfold step. rewrite Hclick. simpl cur. rewrite Hturn, Hstatus. reflexivity. }
  assert (Hs1 : s1 = applyActions (actions (drawCard (cur s) player)) (at_time t s)).
  { unfold s1. apply commit_idle.
    rewrite (drawCard_player_actions _ rest drawn ok Hdeck Hcan).
    destruct ok; simpl; left; exact Hturn. }
  rewrite (drawCard_player_actions _ rest drawn ok Hdeck Hcan) in Hs1.
  exists s1. split; [exact Hstep|].
  destruct ok; simpl in Hs1.
  - rewrite Hs1. simpl. repeat apply conj; auto; discriminate.
  - assert (Ht : timers s1 = schedule (t + 1000) (CbSetTurn ai) (timers s))
      by (rewrite Hs1; reflexivity).
    repeat apply conj; try (rewrite Hs1; simpl; auto; fail); try discriminate.
    intros _. split; [exact Ht|]. intros Hnone.
    rewrite Hnone in Ht. simpl in Ht.
    destruct (fire_CbSetTurn batched s1 (t + 1000) ai [] Ht) as (s2 & H1 & H2 & H3).
    exists s2. split; [exact H1|]. split; [|exact H3].
    rewrite H2, Hs1. simpl. lia.
Qed.

Lemma C4_player_draw_turn_witness :
  let s := boot reversedDeck in
  let drawn := cardOf ACE HEARTS in
  (clickableAt 0 s = true /\ turn (cur s) = player /\ status (cur s) = playing /\
   deck (cur s) = removelast (deck (cur s)) ++ [drawn] /\
   canPlay (cur s) drawn = Some false) /\
  exists s',
    step true (ClickDrawPile 0) s = Some s' /\
    turn (cur s') = player /\
    timers s' = [(1000, CbSetTurn ai)].
Proof.
  split; [repeat split; vm_compute; reflexivity|].
  destruct (C4_player_draw_turn true (boot reversedDeck) 0
              (removelast (deck (cur (boot reversedDeck))))
              (cardOf ACE HEARTS) false)
    as (s' & H1 & _ & _ & H4 & _ & H6); try (vm_compute; reflexivity).
  exists s'. split; [exact H1|]. split; [exact H4|].
  destruct (H6 eq_refl) as [H _]. exact H.
Defined.

(** C5.  [drawCard] for either side on an empty deck: it does not throw;
    after the updates are rendered both hands, the deck and the discard
    pile are as before, the message is the deck-empty one, and the Turn
    is with the other side. *)
Theorem C5_draw_on_empty_deck : forall s target,
  deck (cur s) = [] ->
  let m := drawCard (cur s) target in
  let s' := commit (actions m) s in
  threw m = false /\
  playerHand (cur s') = playerHand (cur s) /\
  aiHand (cur s') = aiHand (cur s) /\
  deck (cur s') = [] /\
  discardPile (cur s') = discardPile (cur s) /\
  message (cur s') = MsgDeckEmpty /\
  turn (cur s') = other target.
Proof.
  intros s target Hd m s'. subst m s'.
  rewrite (drawCard_empty_actions _ target Hd).
  split; [reflexivity|].
  destruct (commit_cases (actions (emit [SetMessage MsgDeckEmpty; SetTurn (other target)])) s)
    as [E|(_ & _ & E)]; rewrite E; simpl; rewrite Hd; auto 10.
Qed.

Lemma C5_draw_on_empty_deck_witness :
  let s := mkSys (mkState [] [cardOf ACE HEARTS] [cardOf TWO CLUBS]
                    [cardOf KING SPADES] (Some SPADES) ai playing false
                    MsgYourTurn false) [] 0 in
  deck (cur s) = [] /\
  let s' := commit (actions (drawCard (cur s) ai)) s in
  aiHand (cur s') = [cardOf TWO CLUBS] /\
  message (cur s') = MsgDeckEmpty /\ turn (cur s') = player.
Proof.
  split; [reflexivity|].
  destruct (C5_draw_on_empty_deck
              (mkSys (mkState [] [cardOf ACE HEARTS] [cardOf TWO CLUBS]
                        [cardOf KING SPADES] (Some SPADES) ai playing false
                        MsgYourTurn false) [] 0) ai eq_refl)
    as (_ & _ & H2 & _ & _ & H5 & H6).
  repeat split; assumption.
Defined.

(** ** Playing a card *)

Lemma filter_id_absent : forall (hand : list CardData) (c : CardData),
  existsb (fun x => String.eqb (id x) (id c)) hand = false ->
  filter (fun x => negb (String.eqb (id x) (id c))) hand = hand.
Proof.
  induction hand as [|x hand IH]; intros c H; [reflexivity|].
  simpl in *. apply orb_false_iff in H as [H1 H2].
  rewrite H1. simpl. rewrite (IH c H2). reflexivity.
Qed.

(** The claim as it is worded fails when the opponent plays an Eight
    from a hand where another suit is in the majority: the second
    [setCurrentSuit] of the handler wins, and Active Suit ends up the
    chosen suit, not the card's. *)
Lemma C10_play_unguarded_counterexample :
  let e := cardOf EIGHT HEARTS in
  let s := mkSys (withAiHand [e; cardOf KING SPADES; cardOf QUEEN SPADES]
                    initialState) [] 0 in
  suit e = HEARTS /\
  currentSuit (cur (exec (playCard (cur s) e ai) s)) = Some SPADES.
Proof. vm_compute. split; reflexivity. Qed.

(** C10, amended.  [playCard] checks nothing: for every state (any
    Status, any Turn, any piles), every card and either acting side it
    does not throw, appends the card to the discard pile and leaves the
    deck, the other side's hand, Status and Turn as they were.  Active
    Suit becomes the card's suit, except when the opponent plays an
    Eight, where it becomes the suit the opponent chooses.  The acting
    side's hand loses the cards that carry the card's identifier; when
    none does, the hand stays as it was while the card is appended all
    the same. *)
Theorem C10_play_unguarded : forall s c target,
  let m := playCard (cur s) c target in
  let s' := exec m s in
  threw m = false /\
  discardPile (cur s') = discardPile (cur s) ++ [c] /\
  currentSuit (cur s') =
    Some (if isEight c && Turn_eqb target ai
          then bestSuit (aiHand (cur s)) else suit c) /\
  handOf target (cur s') =
    filter (fun x => negb (String.eqb (id x) (id c))) (handOf target (cur s)) /\
  (existsb (fun x => String.eqb (id x) (id c)) (handOf target (cur s)) = false ->
   handOf target (cur s') = handOf target (cur s)) /\
  handOf (other target) (cur s') = handOf (other target) (cur s) /\
  deck (cur s') = deck (cur s) /\
  status (cur s') = status (cur s) /\
  turn (cur s') = turn (cur s).
Proof.
  intros s c target m s'. subst m s'. unfold playCard, isEight.
  destruct target, (Rank_eqb (rank c) EIGHT); simpl;
    repeat apply conj; try reflexivity; intros H;
    rewrite (filter_id_absent _ _ H); reflexivity.
Qed.

Lemma C10_play_unguarded_witness :
  let c := cardOf KING CLUBS in
  let s := mkSys (mkState [] [cardOf ACE HEARTS] [cardOf TWO CLUBS]
                    [cardOf SEVEN DIAMONDS] (Some DIAMONDS) ai player_won
                    false MsgPlayerWon false) [] 0 in
  existsb (fun x => String.eqb (id x) (id c)) (handOf player (cur s)) = false /\
  canPlay (cur s) c = Some false /\
  let s' := exec (playCard (cur s) c player) s in
  playerHand (cur s') = [cardOf ACE HEARTS] /\
  discardPile (cur s') = [cardOf SEVEN DIAMONDS; c] /\
  currentSuit (cur s') = Some CLUBS.
Proof.
  split; [reflexivity|]. split; [reflexivity|].
  destruct (C10_play_unguarded
              (mkSys (mkState [] [cardOf ACE HEARTS] [cardOf TWO CLUBS]
                        [cardOf SEVEN DIAMONDS] (Some DIAMONDS) ai player_won
                        false MsgPlayerWon false) [] 0)
              (cardOf KING CLUBS) player)
    as (_ & H1 & H2 & _ & H4 & _).
  split; [exact (H4 eq_refl)|]. split; [exact H1|exact H2].
Defined.

(** ** The opponent's decision *)

Lemma canPlay_defined : forall r c,
  discardPile r <> [] -> canPlay r c = Some (playableb r c).
Proof.
  intros r c H. unfold playableb, canPlay.
  destruct (Rank_eqb (rank c) EIGHT); [reflexivity|].
  destruct (suit_is (suit c) (currentSuit r)); [reflexivity|].
  destruct (lastOf (discardPile r)) eqn:E; [reflexivity|].
  apply lastOf_None in E. contradiction.
Qed.

Lemma filterE_defined : forall r l,
  discardPile r <> [] ->
  filterE (canPlay r) l = Some (filter (playableb r) l).
Proof.
  intros r l H. induction l as [|c l IH]; [reflexivity|].
  simpl. rewrite (canPlay_defined r c H), IH. reflexivity.
Qed.

Lemma find_filter : forall (A : Type) (p : A -> bool) (l : list A),
  find p l = match filter p l with x :: _ => Some x | [] => None end.
Proof.
  induction l as [|x l IH]; [reflexivity|].
  simpl. destruct (p x); [reflexivity|exact IH].
Qed.

Lemma filter_filter : forall (A : Type) (p q : A -> bool) (l : list A),
  filter q (filter p l) = filter (fun x => p x && q x) l.
Proof.
  induction l as [|x l IH]; [reflexivity|].
  simpl. destruct (p x); simpl; [destruct (q x)|]; rewrite IH; reflexivity.
Qed.

Lemma bind_lift_Some : forall (A B : Type) (a : A) (k : A -> Eff B),
  bind (lift (Some a)) k = k a.
Proof. intros A B a k. unfold bind, lift. destruct (k a); reflexivity. Qed.

(** C8.  The opponent's decision procedure.  The effect starts it
    exactly when the opponent holds the Turn, Status is playing and no
    decision is pending, by a timer of 2000 ms.  The timer's body, on a
    state with a top discard card: plays the first card of the hand, in
    hand order, that is playable and not an Eight; when there is none,
    plays the first playable card, which is then an Eight; when no card
    is playable and the deck is not empty, moves the last card of the
    deck to its hand and registers [() => setTurn('player')] for 1000 ms
    later, a function that hands over the Turn whatever the drawn card
    is. *)
Theorem C8_ai_decision : forall r,
  discardPile r <> [] ->
  (actions (aiTurnEffect r) =
     if Turn_eqb (turn r) ai && GameStatus_eqb (status r) playing
        && negb (isAiThinking r)
     then [SetIsAiThinking true; SetTimeout (CbAiTurn r) 2000] else []) /\
  runCallback (CbAiTurn r) = aiTurnCallback r /\
  match find (fun c => playableb r c && isNonEight c) (aiHand r) with
  | Some c =>
      aiTurnCallback r = (playCard r c ai;; emit [SetIsAiThinking false])
  | None =>
      match find (playableb r) (aiHand r) with
      | Some c =>
          rank c = EIGHT /\
          aiTurnCallback r = (playCard r c ai;; emit [SetIsAiThinking false])
      | None =>
          match lastOf (deck r) with
          | Some drawn =>
              aiTurnCallback r =
                emit [SetDeck (removelast (deck r));
                      SetAiHand (aiHand r ++ [drawn]);
                      SetMessage MsgAiDrew;
                      SetTimeout (CbSetTurn player) 1000;
                      SetIsAiThinking false] /\
              runCallback (CbSetTurn player) = emit [SetTurn player]
          | None =>
              aiTurnCallback r =
                emit [SetMessage MsgAiNoMoves; SetTurn player;
                      SetIsAiThinking false]
          end
      end
  end.
Proof.
  intros r Hpile. split; [|split; [reflexivity|]].
  { unfold aiTurnEffect.
    destruct (Turn_eqb (turn r) ai && GameStatus_eqb (status r) playing
              && negb (isAiThinking r)); reflexivity. }
  unfold aiTurnCallback. rewrite (filterE_defined r _ Hpile).
  rewrite !find_filter, <- filter_filter, bind_lift_Some.
  destruct (filter (playableb r) (aiHand r)) as [|first pl] eqn:Epl.
  - simpl filter. cbv iota.
    destruct (lastOf (deck r)) as [drawn|] eqn:Ed.
    + pose proof (lastOf_removelast _ _ _ Ed) as Hd.
      assert (Hlen : Nat.ltb 0 (List.length (deck r)) = true).
      { rewrite Hd, length_app. simpl. apply Nat.ltb_lt. lia. }
      rewrite Hlen. split; [|reflexivity].
      rewrite (drawCard_ai_actions r _ drawn Hd). reflexivity.
    + apply lastOf_None in Ed. rewrite Ed. reflexivity.
  - destruct (filter isNonEight (first :: pl)) as [|c ne] eqn:Ene.
    + split; [|reflexivity].
      simpl in Ene. unfold isNonEight at 1 in Ene.
      destruct (Rank_eqb (rank first) EIGHT) eqn:E8; [|discriminate].
      apply Rank_eqb_eq, E8.
    + reflexivity.
Qed.

Lemma C8_ai_decision_witness :
  discardPile midGame <> [] /\
  aiTurnCallback midGame =
    (playCard midGame (cardOf KING DIAMONDS) ai;; emit [SetIsAiThinking false]).
Proof.
  split; [discriminate|].
  destruct (C8_ai_decision midGame) as (_ & _ & H); [discriminate|].
  exact H.
Defined.

(** ** The discard pile is never empty once the game is set up *)

Lemma schedule_Forall : forall (P : nat * Callback -> Prop) due cb ts,
  P (due, cb) -> Forall P ts -> Forall P (schedule due cb ts).
Proof.
  intros P due cb ts Hp Hts. induction Hts as [|[d c] ts Hd Hts IH]; simpl.
  - auto.
  - destruct (Nat.ltb due d); auto.
Qed.

Lemma applyAction_ok : forall s a, okSys s -> okAction a -> okSys (applyAction s a).
Proof.
  intros s a [H1 H2] Ha. destruct a; simpl in *; split; simpl; auto.
  apply schedule_Forall; auto.
Qed.

Lemma applyActions_ok : forall acts s,
  Forall okAction acts -> okSys s -> okSys (applyActions acts s).
Proof.
  induction acts as [|a acts IH]; intros s Ha Hs; [exact Hs|].
  inversion Ha; subst. unfold applyActions in *. simpl.
  apply IH; [assumption|]. apply applyAction_ok; assumption.
Qed.

Lemma commit_ok_from : forall acts s,
  okSys (applyActions acts s) -> okSys (commit acts s).
Proof.
  intros acts s H. destruct (commit_cases acts s) as [E|(_ & _ & E)];
    rewrite E; [exact H|].
  destruct H as [H1 H2]. split; simpl; [exact H1|].
  apply schedule_Forall; auto.
Qed.

Lemma commit_ok : forall acts s,
  Forall okAction acts -> okSys s -> okSys (commit acts s).
Proof. intros. apply commit_ok_from, applyActions_ok; assumption. Qed.

Lemma commitEach_ok : forall acts s,
  Forall okAction acts -> okSys s -> okSys (commitEach acts s).
Proof.
  induction acts as [|a acts IH]; intros s Ha Hs; [exact Hs|].
  inversion Ha; subst. unfold commitEach in *. simpl.
  apply IH; [assumption|]. apply commit_ok; [|assumption]. constructor; auto.
Qed.

Lemma commitTimer_ok : forall batched acts s,
  Forall okAction acts -> okSys s -> okSys (commitTimer batched acts s).
Proof. intros [] acts s; [apply commit_ok|apply commitEach_ok]. Qed.

(** The actions of a sequence are those of its parts. *)
Lemma bind_actions_Forall : forall (A B : Type) (P : Action -> Prop)
    (m : Eff A) (k : A -> Eff B),
  Forall P (actions m) -> (forall a, Forall P (actions (k a))) ->
  Forall P (actions (bind m k)).
Proof.
  intros A B P [acts [a|]] k Hm Hk; unfold bind, actions in *; simpl in *.
  - specialize (Hk a). destruct (k a) as [acts' b]. simpl in *.
    apply Forall_app; auto.
  - exact Hm.
Qed.

Ltac ok_actions :=
  repeat first
    [ apply bind_actions_Forall; [|intros]
    | progress (unfold emit, ret, lift, actions; simpl)
    | apply Forall_cons
    | apply Forall_nil
    | exact I ].

Lemma checkWin_ok : forall r, Forall okAction (actions (checkWin r)).
Proof.
  intros r. unfold checkWin.
  destruct (Nat.eqb _ 0); [ok_actions|]. destruct (Nat.eqb _ 0); ok_actions.
Qed.

Lemma drawCard_ok : forall r t, Forall okAction (actions (drawCard r t)).
Proof.
  intros r t. unfold drawCard.
  destruct (lastOf (deck r)); [|ok_actions].
  destruct t; [|ok_actions].
  apply bind_actions_Forall; [ok_actions|intros].
  apply bind_actions_Forall; [ok_actions|intros].
  apply bind_actions_Forall; [ok_actions|intros ok].
  destruct ok; ok_actions.
Qed.

Lemma playCard_ok : forall r c t, Forall okAction (actions (playCard r c t)).
Proof.
  intros r c t. unfold playCard.
  apply bind_actions_Forall; [destruct t; ok_actions|intros].
  apply bind_actions_Forall.
  - ok_actions. destruct (discardPile r); discriminate.
  - intros. destruct (Rank_eqb (rank c) EIGHT), t; ok_actions.
Qed.

Lemma handleSuitSelect_ok : forall r su,
  Forall okAction (actions (handleSuitSelect r su)).
Proof. intros. unfold handleSuitSelect. ok_actions. Qed.

Lemma initGame_ok : forall d, Forall okAction (actions (initGame d)).
Proof.
  intros d. unfold initGame.
  apply bind_actions_Forall; [ok_actions|intros].
  apply bind_actions_Forall; [ok_actions|intros].
  ok_actions. discriminate.
Qed.

Lemma aiTurnCallback_ok : forall r, Forall okAction (actions (aiTurnCallback r)).
Proof.
  intros r. unfold aiTurnCallback.
  apply bind_actions_Forall; [ok_actions|intros pl].
  apply bind_actions_Forall; [|intros; ok_actions].
  destruct pl; [|apply playCard_ok].
  destruct (Nat.ltb 0 _); [|ok_actions].
  apply bind_actions_Forall; [apply drawCard_ok|intros; ok_actions].
Qed.

Lemma runCallback_ok : forall cb, Forall okAction (actions (runCallback cb)).
Proof.
  intros [t|r t|r]; simpl.
  - ok_actions.
  - apply bind_actions_Forall; [apply checkWin_ok|intros won].
    destruct won; ok_actions.
  - apply aiTurnCallback_ok.
Qed.

Lemma boot_ok : forall d, isFullDeck d = true -> okSys (boot d).
Proof.
  intros d H. unfold boot.
  destruct (firstNonEight_full d H) as [i Hi].
  destruct (firstNonEight_Some _ _ Hi) as (pre & fd & post & Hd & _ & Hpre & Hfd).
  apply commit_ok_from.
  rewrite (initGame_actions d pre fd post Hd Hpre Hfd).
  split; simpl; [discriminate|constructor].
Qed.

Lemma at_time_ok : forall t s, okSys s -> okSys (at_time t s).
Proof. intros t s H. exact H. Qed.

Lemma step_ok : forall batched e s s',
  okSys s -> step batched e s = Some s' -> okSys s'.
Proof.
  intros batched e s s' Hs Hstep. destruct e as [t|t c|t su|t d|]; simpl in Hstep.
  - destruct (clickableAt t s); [|discriminate].
    destruct (Turn_eqb _ _ && GameStatus_eqb _ _);
      injection Hstep as <-; [|exact Hs].
    apply commit_ok; [apply drawCard_ok|exact Hs].
  - destruct (clickableAt t s && existsb _ _); [|discriminate].
    destruct (isPlayable _ c) as [[|]|]; try discriminate;
      injection Hstep as <-; [|exact Hs].
    apply commit_ok; [apply playCard_ok|exact Hs].
  - destruct (clickableAt t s && showSuitSelector (cur s)); [|discriminate].
    injection Hstep as <-.
    apply commit_ok; [apply handleSuitSelect_ok|exact Hs].
  - destruct (clickableAt t s && isFullDeck d); [|discriminate].
    injection Hstep as <-.
    apply commit_ok; [apply initGame_ok|exact Hs].
  - destruct (timers s) as [|[due cb] rest] eqn:Et; [discriminate|].
    injection Hstep as <-.
    apply commitTimer_ok; [apply runCallback_ok|].
    destruct Hs as [H1 H2]. rewrite Et in H2. inversion H2; subst.
    split; assumption.
Qed.

Lemma reachable_ok : forall batched s, reachable batched s -> okSys s.
Proof.
  intros batched s H. induction H as [d Hd|s e s' _ IH Hstep].
  - apply boot_ok, Hd.
  - exact (step_ok batched e s s' IH Hstep).
Qed.

(** The claim as it is worded fails on the second half: with an empty
    pile the check still returns for a card that is not an Eight when the
    card's suit is the Active Suit, because [||] returns before the top
    card is read. *)
Lemma C9_discard_nonempty_counterexample :
  let r := mkState [] [] [] [] (Some HEARTS) player playing false MsgWelcome
             false in
  let c := cardOf KING HEARTS in
  rank c <> EIGHT /\ discardPile r = [] /\ canPlay r c = Some true.
Proof. split; [discriminate|]. split; reflexivity. Qed.

(** C9, amended.  In every state the component reaches from mounting on
    a shuffled full deck, by clicks, restarts and timers, under either
    way of rendering timer updates: the discard pile is not empty, so
    [canPlay] returns a value for every card, in the current render and
    in the render a pending decision of the opponent closes over.  For a
    card that is not an Eight and whose suit is not the Active Suit,
    [canPlay] returns a value if and only if the pile is not empty. *)
Theorem C9_discard_nonempty :
  (forall batched s,
     reachable batched s ->
     discardPile (cur s) <> [] /\
     (forall c, exists b, canPlay (cur s) c = Some b) /\
     (forall due r c, In (due, CbAiTurn r) (timers s) ->
                      exists b, canPlay r c = Some b)) /\
  (forall r c,
     rank c <> EIGHT -> currentSuit r <> Some (suit c) ->
     ((exists b, canPlay r c = Some b) <-> discardPile r <> [])).
Proof.
  split.
  - intros batched s H. destruct (reachable_ok batched s H) as [H1 H2].
    split; [exact H1|]. split.
    + intros c. eexists. apply canPlay_defined, H1.
    + intros due r c Hin. rewrite Forall_forall in H2.
      specialize (H2 _ Hin). simpl in H2.
      eexists. apply canPlay_defined, H2.
  - intros r c H8 Hs. split.
    + intros [b Hb] Hnil. unfold canPlay in Hb. rewrite Hnil in Hb.
      apply Rank_eqb_neq in H8. rewrite H8 in Hb. simpl in Hb.
      destruct (suit_is (suit c) (currentSuit r)) eqn:E; [|discriminate].
      apply suit_is_eq in E. contradiction.
    + intros H. eexists. apply canPlay_defined, H.
Qed.

Lemma C9_discard_nonempty_witness :
  exists s,
    step true (ClickDrawPile 0) (boot reversedDeck) = Some s /\
    discardPile (cur s) <> [] /\
    exists b, canPlay (cur s) (cardOf KING CLUBS) = Some b.
Proof.
  destruct (step true (ClickDrawPile 0) (boot reversedDeck)) as [s|] eqn:E;
    [|vm_compute in E; discriminate].
  exists s. split; [reflexivity|].
  assert (R : reachable true s).
  { apply (reach_step true (boot reversedDeck) (ClickDrawPile 0) s).
    - apply reach_boot. vm_compute. reflexivity.
    - exact E. }
  destruct (proj1 C9_discard_nonempty true s R) as (H1 & H2 & _).
  split; [exact H1|apply H2].
Defined.

(** ** Runs in which a stale timer acts *)

Lemma run_reachable : forall batched es s s',
  reachable batched s -> run batched es s = Some s' -> reachable batched s'.
Proof.
  intros batched es. induction es as [|e es IH]; intros s s' Hs Hrun; simpl in Hrun.
  - injection Hrun as <-. exact Hs.
  - destruct (step batched e s) as [s1|] eqn:E; [|discriminate].
    apply (IH s1 s'); [|exact Hrun].
    exact (reach_step batched s e s1 Hs E).
Qed.

(** C6.  A run from setup, by plays of the player, a suit selection and
    decisions of the opponent, after which a card is in none of the four
    containers.  After [staleClicks] the 2 of Diamonds lies on top of the
    discard pile and all 52 cards are held.  A decision of the opponent
    is still pending then, registered before the player's last play (at
    3000 ms when timer updates are batched, at 3500 ms when they are
    not); when it fires it sets the discard pile from the render it
    closes over, which does not have the 2 of Diamonds.  Three timers
    later 51 cards are left, under either way of rendering. *)
Theorem C6_stale_decision_loses_card : forall batched,
  isFullDeck staleDeck = true /\
  exists s s',
    run batched staleClicks (boot staleDeck) = Some s /\
    lastOf (discardPile (cur s)) = Some (cardOf TWO DIAMONDS) /\
    List.length (allCards (cur s)) = 52 /\
    run batched [Tick; Tick; Tick] s = Some s' /\
    reachable batched s' /\
    status (cur s') = playing /\
    holds (cur s') (cardOf TWO DIAMONDS) = false /\
    List.length (allCards (cur s')) = 51.
Proof.
  intros batched.
  assert (Hfull : isFullDeck staleDeck = true) by (vm_compute; reflexivity).
  split; [exact Hfull|].
  destruct (run batched staleClicks (boot staleDeck)) as [s|] eqn:E1;
    [|destruct batched; vm_compute in E1; discriminate].
  destruct (run batched [Tick; Tick; Tick] s) as [s'|] eqn:E2;
    [|destruct batched; vm_compute in E1; injection E1 as <-;
      vm_compute in E2; discriminate].
  exists s, s'. split; [reflexivity|].
  assert (R : reachable batched s').
  { apply (run_reachable batched [Tick; Tick; Tick] s s'); [|exact E2].
    apply (run_reachable batched staleClicks (boot staleDeck) s); [|exact E1].
    apply reach_boot, Hfull. }
  destruct batched; vm_compute in E1; injection E1 as <-;
    vm_compute in E2; injection E2 as <-;
    repeat apply conj; try reflexivity; exact R.
Qed.

(** C7.  A run from setup that reaches Status player_won at 2700 ms with
    the opponent's thinking timer, registered at 1000 ms, still pending.
    The timer is the next event, at 3000 ms, with no restart in between:
    its body is not guarded by Status, and the opponent plays the King of
    Spades from its hand onto the discard pile while Status is
    player_won. *)
Theorem C7_terminal_state_still_changes : forall batched,
  isFullDeck quickWinDeck = true /\
  exists s s',
    run batched quickWinClicks (boot quickWinDeck) = Some s /\
    reachable batched s /\
    status (cur s) = player_won /\
    now s = 2700 /\
    playerHand (cur s) = [] /\
    step batched Tick s = Some s' /\
    now s' = 3000 /\
    status (cur s') = player_won /\
    aiHand (cur s) = cardOf KING SPADES :: aiHand (cur s') /\
    discardPile (cur s') = discardPile (cur s) ++ [cardOf KING SPADES].
Proof.
  intros batched.
  assert (Hfull : isFullDeck quickWinDeck = true) by (vm_compute; reflexivity).
  split; [exact Hfull|].
  destruct (run batched quickWinClicks (boot quickWinDeck)) as [s|] eqn:E1;
    [|destruct batched; vm_compute in E1; discriminate].
  destruct (step batched Tick s) as [s'|] eqn:E2;
    [|destruct batched; vm_compute in E1; injection E1 as <-;
      vm_compute in E2; discriminate].
  exists s, s'. split; [reflexivity|].
  assert (R : reachable batched s).
  { apply (run_reachable batched quickWinClicks (boot quickWinDeck) s);
      [|exact E1].
    apply reach_boot, Hfull. }
  destruct batched; vm_compute in E1; injection E1 as <-;
    vm_compute in E2; injection E2 as <-;
    repeat apply conj; try reflexivity; exact R.
Qed.

(** ** Where the partition does hold

    Every event keeps the 52 cards partitioned over the four containers,
    as long as a decision of the opponent fires from a render whose
    containers are still the current ones.  The run of C6 is one in which
    it does not. *)

Lemma applyAction_cur : forall s a, cur (applyAction s a) = applyState (cur s) a.
Proof. intros s []; reflexivity. Qed.

Lemma applyActions_cur : forall acts s,
  cur (applyActions acts s) = fold_left applyState acts (cur s).
Proof.
  induction acts as [|a acts IH]; intros s; [reflexivity|].
  unfold applyActions in *. simpl. rewrite IH, applyAction_cur. reflexivity.
Qed.

Lemma applyState_piles : forall r r' a,
  piles r = piles r' -> piles (applyState r a) = piles (applyState r' a).
Proof.
  intros r r' a H. unfold piles in *. injection H as H1 H2 H3 H4.
  destruct a; simpl; congruence.
Qed.

Lemma fold_applyState_piles : forall acts r r',
  piles r = piles r' ->
  piles (fold_left applyState acts r) = piles (fold_left applyState acts r').
Proof.
  induction acts as [|a acts IH]; intros r r' H; [exact H|].
  simpl. apply IH, applyState_piles, H.
Qed.

Lemma commit_piles : forall acts s,
  piles (cur (commit acts s)) = piles (fold_left applyState acts (cur s)).
Proof.
  intros acts s. rewrite <- applyActions_cur.
  destruct (commit_cases acts s) as [E|(_ & _ & E)]; rewrite E; reflexivity.
Qed.

Lemma commitEach_piles : forall acts s,
  piles (cur (commitEach acts s)) = piles (fold_left applyState acts (cur s)).
Proof.
  induction acts as [|a acts IH]; intros s; [reflexivity|].
  unfold commitEach in *. simpl. rewrite IH.
  apply fold_applyState_piles. apply (commit_piles [a] s).
Qed.

Lemma commitTimer_piles : forall batched acts s,
  piles (cur (commitTimer batched acts s))
  = piles (fold_left applyState acts (cur s)).
Proof. intros [] acts s; [apply commit_piles|apply commitEach_piles]. Qed.

Lemma partitioned_piles : forall full r r',
  piles r = piles r' -> partitioned full r' -> partitioned full r.
Proof.
  intros full r r' H. unfold partitioned, allCards, piles in *.
  injection H as -> -> -> ->. auto.
Qed.

Lemma filter_remove_Permutation : forall (hand : list CardData) (c : CardData),
  NoDup (map id hand) -> In c hand ->
  Permutation hand
    (c :: filter (fun x => negb (String.eqb (id x) (id c))) hand).
Proof.
  induction hand as [|x hand IH]; intros c Hnd Hin; [contradiction|].
  simpl in Hnd. inversion Hnd as [|? ? Hx Hnd']; subst. simpl.
  destruct Hin as [->|Hin].
  - rewrite String.eqb_refl. simpl. rewrite filter_id_absent; [reflexivity|].
    destruct (existsb _ hand) eqn:E; [exfalso|reflexivity].
    apply existsb_exists in E as [y [Hy E]]. apply String.eqb_eq in E.
    apply Hx. rewrite <- E. apply in_map, Hy.
  - destruct (String.eqb (id x) (id c)) eqn:E.
    + exfalso. apply String.eqb_eq in E. apply Hx. rewrite E.
      apply in_map, Hin.
    + simpl. rewrite (IH c Hnd' Hin) at 1. apply perm_swap.
Qed.

Lemma partitioned_NoDup : forall full r,
  NoDup (map id full) -> partitioned full r ->
  NoDup (map id (playerHand r)) /\ NoDup (map id (aiHand r)).
Proof.
  intros full r Hnd Hp. unfold partitioned, allCards in Hp.
  assert (H : NoDup (map id (deck r ++ playerHand r ++ aiHand r ++ discardPile r))).
  { apply (Permutation_NoDup (l := map id full)); [|exact Hnd].
    apply Permutation_map. symmetry. exact Hp. }
  rewrite !map_app in H. apply NoDup_app_remove_l in H.
  split; [apply NoDup_app_remove_r in H; exact H|].
  apply NoDup_app_remove_l, NoDup_app_remove_r in H. exact H.
Qed.

Lemma perm_draw_player : forall (a b c : list CardData) x,
  Permutation (a ++ (b ++ [x]) ++ c) ((a ++ [x]) ++ b ++ c).
Proof.
  intros. rewrite <- !app_assoc. apply Permutation_app_head. simpl.
  symmetry. apply Permutation_middle.
Qed.

Lemma perm_draw_ai : forall (a b c d : list CardData) x,
  Permutation (a ++ b ++ (c ++ [x]) ++ d) ((a ++ [x]) ++ b ++ c ++ d).
Proof.
  intros. rewrite <- !app_assoc. apply Permutation_app_head. simpl.
  rewrite !app_assoc. symmetry. apply Permutation_middle.
Qed.

Lemma perm_play_player : forall (a hand hand' c d : list CardData) x,
  Permutation hand (x :: hand') ->
  Permutation (a ++ hand' ++ c ++ d ++ [x]) (a ++ hand ++ c ++ d).
Proof.
  intros a hand hand' c d x H. apply Permutation_app_head.
  rewrite H. simpl. rewrite !app_assoc. symmetry.
  apply Permutation_cons_append.
Qed.

Lemma perm_play_ai : forall (a b hand hand' d : list CardData) x,
  Permutation hand (x :: hand') ->
  Permutation (a ++ b ++ hand' ++ d ++ [x]) (a ++ b ++ hand ++ d).
Proof.
  intros a b hand hand' d x H. do 2 apply Permutation_app_head.
  rewrite H. simpl. rewrite !app_assoc. symmetry.
  apply Permutation_cons_append.
Qed.

Lemma drawCard_partition : forall r target,
  Permutation (allCards (fold_left applyState (actions (drawCard r target)) r))
              (allCards r).
Proof.
  intros r target. unfold drawCard.
  destruct (lastOf (deck r)) as [drawn|] eqn:E; [|reflexivity].
  apply lastOf_removelast in E. set (rest := removelast (deck r)) in *.
  unfold allCards.
  destruct target; [destruct (canPlay r drawn) as [[|]|]|]; simpl; rewrite E;
    first [apply perm_draw_player | apply perm_draw_ai].
Qed.

Lemma playCard_partition : forall r c target,
  NoDup (map id (handOf target r)) -> In c (handOf target r) ->
  Permutation (allCards (fold_left applyState (actions (playCard r c target)) r))
              (allCards r).
Proof.
  intros r c target Hnd Hin.
  pose proof (filter_remove_Permutation _ c Hnd Hin) as Hp.
  unfold playCard, allCards.
  destruct target, (Rank_eqb (rank c) EIGHT); simpl in *;
    first [apply perm_play_player; exact Hp | apply perm_play_ai; exact Hp].
Qed.

Lemma filterE_incl : forall (A : Type) (f : A -> option bool) (l pl : list A),
  filterE f l = Some pl -> incl pl l.
Proof.
  induction l as [|x l IH]; intros pl H; simpl in H.
  - injection H as <-. apply incl_refl.
  - destruct (f x) as [b|]; [|discriminate].
    destruct (filterE f l) as [t|]; [|discriminate]. injection H as <-.
    destruct b; [apply incl_cons; [left; reflexivity|]|];
      apply incl_tl, IH; reflexivity.
Qed.

Lemma fold_applyState_app : forall a b r,
  fold_left applyState (a ++ b) r
  = fold_left applyState b (fold_left applyState a r).
Proof. intros. apply fold_left_app. Qed.

Lemma bind_tail_piles : forall (m : Eff unit) (tail : list Action) r,
  (forall a, In a tail -> forall r', piles (applyState r' a) = piles r') ->
  piles (fold_left applyState (actions (m;; emit tail)) r)
  = piles (fold_left applyState (actions m) r).
Proof.
  intros [acts [[]|]] tail r H; unfold bind, emit, actions; simpl; [|reflexivity].
  rewrite fold_applyState_app. generalize (fold_left applyState acts r).
  induction tail as [|a tail IH]; intros r0; [reflexivity|].
  simpl. rewrite IH by (intros; apply H; right; assumption).
  apply H. left. reflexivity.
Qed.

Lemma allCards_piles : forall r r', piles r = piles r' -> allCards r = allCards r'.
Proof.
  intros r r' H. unfold allCards, piles in *. injection H as -> -> -> ->.
  reflexivity.
Qed.

Lemma aiTurnCallback_partition : forall r,
  NoDup (map id (aiHand r)) ->
  Permutation (allCards (fold_left applyState (actions (aiTurnCallback r)) r))
              (allCards r).
Proof.
  intros r Hnd. unfold aiTurnCallback.
  destruct (filterE (canPlay r) (aiHand r)) as [pl|] eqn:E; [|reflexivity].
  rewrite bind_lift_Some.
  rewrite (allCards_piles _ _ (bind_tail_piles _ [SetIsAiThinking false] r
             ltac:(intros a [<-|[]] r'; reflexivity))).
  apply filterE_incl in E.
  destruct pl as [|first pl].
  - destruct (Nat.ltb 0 _); [|reflexivity].
    rewrite (allCards_piles _ _ (bind_tail_piles (drawCard r ai)
               [SetTimeout (CbSetTurn player) 1000] r
               ltac:(intros a [<-|[]] r'; reflexivity))).
    apply (drawCard_partition r ai).
  - apply (playCard_partition r _ ai Hnd). apply E.
    destruct (filter isNonEight (first :: pl)) as [|c ne] eqn:Ene.
    + left. reflexivity.
    + assert (Hc : In c (filter isNonEight (first :: pl)))
        by (rewrite Ene; left; reflexivity).
      apply filter_In in Hc. apply Hc.
Qed.

Lemma runCallback_partition : forall cb r,
  match cb with
  | CbAiTurn r0 => piles r0 = piles r /\ NoDup (map id (aiHand r))
  | _ => True
  end ->
  Permutation (allCards (fold_left applyState (actions (runCallback cb)) r))
              (allCards r).
Proof.
  intros [t|r0 t|r0] r H; simpl.
  - reflexivity.
  - unfold checkWin.
    destruct (Nat.eqb _ 0); [reflexivity|]. destruct (Nat.eqb _ 0); reflexivity.
  - destruct H as [Hp Hnd].
    assert (Ha : aiHand r0 = aiHand r) by (unfold piles in Hp; congruence).
    rewrite <- Ha in Hnd.
    rewrite <- (allCards_piles _ _ Hp), <- (aiTurnCallback_partition r0 Hnd) at 1.
    rewrite (allCards_piles _ _
               (fold_applyState_piles (actions (aiTurnCallback r0)) r r0
                  (eq_sym Hp))).
    reflexivity.
Qed.

Lemma CardData_eqb_eq : forall a b, CardData_eqb a b = true -> a = b.
Proof.
  intros [i s r] [i' s' r'] H. unfold CardData_eqb in H. simpl in H.
  apply andb_true_iff in H as [H H3]. apply andb_true_iff in H as [H1 H2].
  apply String.eqb_eq in H1. apply Suit_eqb_eq in H2. apply Rank_eqb_eq in H3.
  congruence.
Qed.

Lemma initGame_partition : forall d r,
  isFullDeck d = true ->
  partitioned d (fold_left applyState (actions (initGame d)) r).
Proof.
  intros d r H.
  destruct (firstNonEight_full d H) as [i Hi].
  destruct (firstNonEight_Some _ _ Hi) as (pre & fd & post & Hd & _ & Hpre & Hfd).
  rewrite (initGame_actions d pre fd post Hd Hpre Hfd).
  assert (E : d = firstn 8 d ++ firstn 8 (skipn 8 d) ++ pre ++ fd :: post)
    by (rewrite <- Hd, !firstn_skipn; reflexivity).
  set (p := firstn 8 d) in *. set (a := firstn 8 (skipn 8 d)) in *.
  unfold partitioned, allCards. simpl. rewrite E at 1.
  rewrite (Permutation_app_comm (pre ++ post)), <- !app_assoc.
  do 2 apply Permutation_app_head.
  simpl. apply Permutation_middle.
Qed.

(** X1.  Mounting on a full deck partitions it, and so does a restart;
    every other event keeps the partition, a timer under the proviso
    that, if it is a decision of the opponent, the render it closes over
    has the containers of the current one. *)
Theorem partition_kept_by_fresh_events :
  (forall d, isFullDeck d = true ->
     NoDup (map id d) /\ partitioned d (cur (boot d))) /\
  (forall batched full s e s',
     NoDup (map id full) ->
     partitioned full (cur s) ->
     step batched e s = Some s' ->
     match e with
     | ClickRestart _ d => partitioned d (cur s')
     | Tick =>
         (forall due r rest, timers s = (due, CbAiTurn r) :: rest ->
                             piles r = piles (cur s)) ->
         partitioned full (cur s')
     | _ => partitioned full (cur s')
     end).
Proof.
  split.
  { intros d H. split; [apply isFullDeck_ids, H|].
    apply (partitioned_piles _ _ _ (commit_piles _ _)).
    apply initGame_partition, H. }
  intros batched full s e s' Hnd Hp Hstep.
  destruct (partitioned_NoDup full (cur s) Hnd Hp) as [Hph Hah].
  destruct e as [t|t c|t su|t d|]; simpl in Hstep.
  - destruct (clickableAt t s); [|discriminate].
    destruct (Turn_eqb _ _ && GameStatus_eqb _ _);
      injection Hstep as <-; [|exact Hp].
    apply (partitioned_piles _ _ _ (commit_piles _ _)). unfold partitioned.
    simpl cur. rewrite drawCard_partition. exact Hp.
  - destruct (clickableAt t s && existsb _ _) eqn:E; [|discriminate].
    apply andb_true_iff in E as [_ E].
    apply existsb_exists in E as [x [Hx E]]. apply CardData_eqb_eq in E. subst x.
    destruct (isPlayable _ c) as [[|]|]; try discriminate;
      injection Hstep as <-; [|exact Hp].
    apply (partitioned_piles _ _ _ (commit_piles _ _)). unfold partitioned.
    simpl cur. rewrite (playCard_partition (cur s) c player Hph Hx). exact Hp.
  - destruct (clickableAt t s && showSuitSelector (cur s)); [|discriminate].
    injection Hstep as <-.
    apply (partitioned_piles _ _ _ (commit_piles _ _)). exact Hp.
  - destruct (clickableAt t s && isFullDeck d) eqn:E; [|discriminate].
    apply andb_true_iff in E as [_ E]. injection Hstep as <-.
    apply (partitioned_piles _ _ _ (commit_piles _ _)).
    apply initGame_partition, E.
  - intros Hfresh.
    destruct (timers s) as [|[due cb] rest] eqn:Et; [discriminate|].
    injection Hstep as <-.
    apply (partitioned_piles _ _ _ (commitTimer_piles _ _ _)). unfold partitioned.
    simpl cur. rewrite runCallback_partition; [exact Hp|].
    destruct cb as [| |r]; auto. split; [|exact Hah].
    apply (Hfresh due r rest eq_refl).
Qed.

Lemma partition_kept_by_fresh_events_witness :
  exists s,
    step true (ClickCard 0 (cardOf ACE HEARTS)) (boot staleDeck) = Some s /\
    partitioned staleDeck (cur s).
Proof.
  destruct (step true (ClickCard 0 (cardOf ACE HEARTS)) (boot staleDeck))
    as [s|] eqn:E; [|vm_compute in E; discriminate].
  exists s. split; [reflexivity|].
  destruct partition_kept_by_fresh_events as [Hboot Hstep].
  destruct (Hboot staleDeck) as [Hnd Hp]; [vm_compute; reflexivity|].
  exact (Hstep true staleDeck (boot staleDeck) _ s Hnd Hp E).
Defined.

(** ** What the Status gates do stop

    With Status terminal, a click on the draw pile or on a card does
    nothing, a suit selection and every timer other than a decision of
    the opponent leave the four containers alone, and no event registers
    a new decision.  The run of C7 goes through the one gap: a decision
    registered while Status was still playing. *)

Lemma schedule_filter_other : forall due cb ts,
  isAiTurnTimer (due, cb) = false ->
  filter isAiTurnTimer (schedule due cb ts) = filter isAiTurnTimer ts.
Proof.
  intros due cb ts H. induction ts as [|[d c] ts IH]; simpl.
  - rewrite H. reflexivity.
  - destruct (Nat.ltb due d); simpl.
    + rewrite H. reflexivity.
    + rewrite IH. reflexivity.
Qed.






(** ** The win check after a play *)




(** ** A restart while the opponent is thinking *)

(** X5.  A restart does not cancel the opponent's pending decision.  In
    the run [restartClicks] the decision registered in the first game
    fires in the second: it sets the deck and the opponent's hand from
    the render of the first game, after which the 2 of Hearts is held
    twice (in the deck and in the player's hand) and the 2 of Diamonds
    not at all. *)
Theorem restart_leaves_decision_pending : forall batched,
  isFullDeck staleDeck = true /\ isFullDeck quickWinDeck = true /\
  exists s,
    run batched restartClicks (boot staleDeck) = Some s /\
    status (cur s) = playing /\
    existsb (CardData_eqb (cardOf TWO HEARTS)) (deck (cur s)) = true /\
    existsb (CardData_eqb (cardOf TWO HEARTS)) (playerHand (cur s)) = true /\
    holds (cur s) (cardOf TWO DIAMONDS) = false.
Proof.
  intros batched. split; [vm_compute; reflexivity|].
  split; [vm_compute; reflexivity|].
  destruct batched; eexists; (split; [vm_compute; reflexivity|]);
    repeat apply conj; reflexivity.
Qed.

(** ** What the handlers issue *)

Lemma Forall_mild_of_tame : forall acts, Forall tame acts -> Forall mild acts.
Proof.
  intros acts H. apply (Forall_impl mild (P := tame)); [|exact H].
  intros [] Ha; try exact I; exact Ha.
Qed.

Ltac shape_actions :=
  repeat first
    [ apply bind_actions_Forall; [|intros]
    | progress (unfold emit, ret, lift, actions; simpl)
    | apply Forall_cons
    | apply Forall_nil
    | exact I
    | discriminate ].

Lemma checkWin_tame : forall r, Forall tame (actions (checkWin r)).
Proof.
  intros r. unfold checkWin.
  destruct (Nat.eqb _ 0); [shape_actions|]. destruct (Nat.eqb _ 0); shape_actions.
Qed.

Lemma drawCard_tame : forall r t, Forall tame (actions (drawCard r t)).
Proof.
  intros r t. unfold drawCard.
  destruct (lastOf (deck r)); [|shape_actions].
  destruct t; [|shape_actions].
  apply bind_actions_Forall; [shape_actions|intros].
  apply bind_actions_Forall; [shape_actions|intros].
  apply bind_actions_Forall; [shape_actions|intros ok].
  destruct ok; shape_actions.
Qed.

Lemma playCard_tame : forall r c t, Forall tame (actions (playCard r c t)).
Proof.
  intros r c t. unfold playCard.
  apply bind_actions_Forall; [destruct t; shape_actions|intros].
  apply bind_actions_Forall; [shape_actions|intros].
  destruct (Rank_eqb (rank c) EIGHT), t; shape_actions.
Qed.

Lemma handleSuitSelect_tame : forall r su,
  Forall tame (actions (handleSuitSelect r su)).
Proof. intros. unfold handleSuitSelect. shape_actions. Qed.

(** The body of the opponent's timer: tame actions, then the thinking
    flag is cleared; or nothing at all, when [canPlay] throws. *)
Lemma aiTurnCallback_shape : forall r,
  (exists acts,
     Forall tame acts /\
     actions (aiTurnCallback r) = acts ++ [SetIsAiThinking false]) \/
  (filterE (canPlay r) (aiHand r) = None /\ actions (aiTurnCallback r) = []).
Proof.
  intros r. unfold aiTurnCallback.
  destruct (filterE (canPlay r) (aiHand r)) as [pl|] eqn:E; [left|right; auto].
  rewrite bind_lift_Some.
  assert (H : forall m : Eff unit,
            snd m = Some tt -> Forall tame (actions m) ->
            exists acts,
              Forall tame acts /\
              actions (m;; emit [SetIsAiThinking false])
              = acts ++ [SetIsAiThinking false]).
  { intros [acts [[]|]] Hm Ht; [|discriminate]. exists acts. split; [exact Ht|].
    reflexivity. }
  apply H.
  - destruct pl as [|first pl].
    + destruct (Nat.ltb 0 _); [|reflexivity].
      unfold drawCard. destruct (lastOf (deck r)); reflexivity.
    + unfold playCard. destruct (Rank_eqb (rank _) EIGHT); reflexivity.
  - destruct pl as [|first pl].
    + destruct (Nat.ltb 0 _); [|shape_actions].
      apply bind_actions_Forall; [apply drawCard_tame|intros; shape_actions].
    + apply playCard_tame.
Qed.

Lemma runCallback_mild : forall cb, Forall mild (actions (runCallback cb)).
Proof.
  intros [t|r t|r]; simpl.
  - repeat constructor.
  - apply Forall_mild_of_tame.
    apply bind_actions_Forall; [apply checkWin_tame|intros won].
    destruct won; shape_actions.
  - destruct (aiTurnCallback_shape r) as [(acts & Ht & E)|[_ E]]; rewrite E.
    + apply Forall_app. split; [apply Forall_mild_of_tame, Ht|].
      repeat constructor.
    + constructor.
Qed.

(** ** Invariants of the state under batches of updates *)

Section StateInvariant.

Variable P : State -> Prop.
Variable A : Action -> Prop.
Hypothesis applyState_keeps : forall r a, A a -> P r -> P (applyState r a).
Hypothesis thinking_keeps : forall r, P r -> P (thinking r).

Lemma applyAction_keeps : forall s a, A a -> P (cur s) -> P (cur (applyAction s a)).
Proof.
  intros s a Ha Hp. rewrite applyAction_cur. apply applyState_keeps; assumption.
Qed.

Lemma applyActions_keeps : forall acts s,
  Forall A acts -> P (cur s) -> P (cur (applyActions acts s)).
Proof.
  induction acts as [|a acts IH]; intros s Ha Hp; [exact Hp|].
  inversion Ha; subst. unfold applyActions in *. simpl.
  apply IH; [assumption|]. apply applyAction_keeps; assumption.
Qed.

Lemma commit_keeps : forall acts s,
  Forall A acts -> P (cur s) -> P (cur (commit acts s)).
Proof.
  intros acts s Ha Hp. pose proof (applyActions_keeps acts s Ha Hp) as H.
  destruct (commit_cases acts s) as [E|(_ & _ & E)]; rewrite E; [exact H|].
  simpl. apply thinking_keeps, H.
Qed.

Lemma commitEach_keeps : forall acts s,
  Forall A acts -> P (cur s) -> P (cur (commitEach acts s)).
Proof.
  induction acts as [|a acts IH]; intros s Ha Hp; [exact Hp|].
  inversion Ha; subst. unfold commitEach in *. simpl.
  apply IH; [assumption|]. apply commit_keeps; [|assumption]. constructor; auto.
Qed.

Lemma commitTimer_keeps : forall batched acts s,
  Forall A acts -> P (cur s) -> P (cur (commitTimer batched acts s)).
Proof. intros [] acts s; [apply commit_keeps|apply commitEach_keeps]. Qed.

End StateInvariant.

(** ** Status and Active Suit along a run *)

Lemma mild_applyState_status : forall r a,
  mild a -> status r <> playing -> status (applyState r a) <> playing.
Proof. intros r [] Ha H; simpl in *; auto. Qed.

Lemma handler_mild_draw : forall r t, Forall mild (actions (drawCard r t)).
Proof. intros. apply Forall_mild_of_tame, drawCard_tame. Qed.

Lemma handler_mild_play : forall r c t, Forall mild (actions (playCard r c t)).
Proof. intros. apply Forall_mild_of_tame, playCard_tame. Qed.

Lemma handler_mild_suit : forall r su,
  Forall mild (actions (handleSuitSelect r su)).
Proof. intros. apply Forall_mild_of_tame, handleSuitSelect_tame. Qed.

(** Every event other than a restart issues mild actions only. *)
Lemma step_mild : forall (P : State -> Prop),
  (forall r a, mild a -> P r -> P (applyState r a)) ->
  (forall r, P r -> P (thinking r)) ->
  forall batched e s s',
    isRestart e = false -> P (cur s) -> step batched e s = Some s' ->
    P (cur s').
Proof.
  intros P H1 H2 batched e s s' He Hp Hstep.
  destruct e as [t|t c|t su|t d|]; simpl in Hstep; try discriminate.
  - destruct (clickableAt t s); [|discriminate].
    destruct (Turn_eqb _ _ && GameStatus_eqb _ _);
      injection Hstep as <-; [|exact Hp].
    apply (commit_keeps P mild H1 H2); [apply handler_mild_draw|exact Hp].
  - destruct (clickableAt t s && existsb _ _); [|discriminate].
    destruct (isPlayable _ c) as [[|]|]; try discriminate;
      injection Hstep as <-; [|exact Hp].
    apply (commit_keeps P mild H1 H2); [apply handler_mild_play|exact Hp].
  - destruct (clickableAt t s && showSuitSelector (cur s)); [|discriminate].
    injection Hstep as <-.
    apply (commit_keeps P mild H1 H2); [apply handler_mild_suit|exact Hp].
  - destruct (timers s) as [|[due cb] rest]; [discriminate|].
    injection Hstep as <-.
    apply (commitTimer_keeps P mild H1 H2); [apply runCallback_mild|exact Hp].
Qed.

Lemma step_keeps_over : forall batched e s s',
  status (cur s) <> playing ->
  isRestart e = false ->
  step batched e s = Some s' ->
  status (cur s') <> playing.
Proof.
  intros batched e s s' Hst He Hstep.
  apply (step_mild (fun r => status r <> playing)
           mild_applyState_status (fun r H => H) batched e s s' He Hst Hstep).
Qed.

(** X6.  Only a restart leaves a finished game.  Once Status is not
    playing, it is not playing after any run of clicks and timers
    without a restart, a pending decision of the opponent included: the
    game-over dialog stays up and the draw pile stays dimmed. *)
Theorem game_over_is_final : forall batched es s s',
  status (cur s) <> playing ->
  noRestart es = true ->
  run batched es s = Some s' ->
  status (cur s') <> playing /\
  renderGameOver (cur s') <> None /\
  drawPileDimmed (cur s') = true.
Proof.
  intros batched es s s' Hst Hes Hrun.
  assert (H : status (cur s') <> playing).
  { revert s Hst Hrun. induction es as [|e es IH]; intros s Hst Hrun;
      simpl in Hrun.
    - injection Hrun as <-. exact Hst.
    - simpl in Hes. apply andb_true_iff in Hes as [He Hes].
      apply negb_true_iff in He.
      destruct (step batched e s) as [s1|] eqn:E; [|discriminate].
      apply (IH Hes s1); [|exact Hrun].
      exact (step_keeps_over batched e s s1 Hst He E). }
  split; [exact H|]. unfold renderGameOver, drawPileDimmed.
  destruct (status (cur s')); try contradiction;
    (split; [discriminate|]); destruct (turn (cur s')); reflexivity.
Qed.

Lemma game_over_is_final_witness :
  status (cur wonGame) = player_won /\
  exists s',
    run true [ClickDrawPile 5; Tick; ClickDrawPile 3100] wonGame = Some s' /\
    piles (cur s') <> piles (cur wonGame) /\
    status (cur s') <> playing /\
    renderGameOver (cur s') <> None.
Proof.
  split; [reflexivity|].
  destruct (run true [ClickDrawPile 5; Tick; ClickDrawPile 3100] wonGame)
    as [s'|] eqn:E; [|vm_compute in E; discriminate].
  exists s'. split; [reflexivity|].
  split; [vm_compute in E; injection E as <-; vm_compute; discriminate|].
  destruct (game_over_is_final true
              [ClickDrawPile 5; Tick; ClickDrawPile 3100] wonGame s')
    as (H1 & H2 & _); [discriminate|reflexivity|exact E|].
  split; [exact H1|exact H2].
Defined.

Lemma keepsSuit_applyState : forall r a,
  keepsSuit a -> currentSuit r <> None -> currentSuit (applyState r a) <> None.
Proof. intros r [] Ha H; simpl in *; auto. Qed.

Lemma initGame_keepsSuit : forall d, Forall keepsSuit (actions (initGame d)).
Proof.
  intros d. unfold initGame.
  apply bind_actions_Forall; [shape_actions|intros].
  apply bind_actions_Forall; [shape_actions|intros].
  shape_actions.
Qed.

(** X7.  Active Suit is never absent once the component is mounted:
    in every state reached from a mount on a full deck, restarts and
    stale timers included, [currentSuit] holds a suit, and the badge over
    the discard pile shows an icon. *)
Theorem activeSuit_never_absent : forall batched s,
  reachable batched s ->
  currentSuit (cur s) <> None /\ suitBadge (cur s) <> None.
Proof.
  intros batched s H.
  assert (G : currentSuit (cur s) <> None);
    [|split; [exact G|]; unfold suitBadge;
      destruct (currentSuit (cur s)) as [[]|]; try discriminate; contradiction].
  induction H as [d Hd|s e s' _ IH Hstep].
  - unfold boot.
    destruct (firstNonEight_full d Hd) as [i Hi].
    destruct (firstNonEight_Some _ _ Hi) as (pre & fd & post & E & _ & Hpre & Hfd).
    rewrite (initGame_actions d pre fd post E Hpre Hfd).
    match goal with |- context [commit ?acts ?s0] =>
      destruct (commit_cases acts s0) as [E'|(_ & _ & E')]; rewrite E'
    end; simpl; discriminate.
  - destruct (isRestart e) eqn:He.
    + destruct e as [| | |t d|]; try discriminate. simpl in Hstep.
      destruct (clickableAt t s && isFullDeck d); [|discriminate].
      injection Hstep as <-.
      apply (commit_keeps (fun r => currentSuit r <> None) keepsSuit
               keepsSuit_applyState (fun r H => H));
        [apply initGame_keepsSuit|exact IH].
    + assert (Hm : forall r a, mild a -> currentSuit r <> None ->
                               currentSuit (applyState r a) <> None)
        by (intros r [] Ha Hr; simpl in *; auto).
      exact (step_mild (fun r => currentSuit r <> None) Hm (fun r H => H)
               batched e s s' He IH Hstep).
Qed.

Lemma activeSuit_never_absent_witness :
  exists s,
    run true restartClicks (boot staleDeck) = Some s /\
    currentSuit (cur s) <> None /\ suitBadge (cur s) <> None.
Proof.
  destruct (run true restartClicks (boot staleDeck)) as [s|] eqn:E;
    [|vm_compute in E; discriminate].
  exists s. split; [reflexivity|].
  apply (activeSuit_never_absent true s).
  apply (run_reachable true restartClicks (boot staleDeck) s); [|exact E].
  apply reach_boot. vm_compute. reflexivity.
Defined.

(** ** The re-entry guard of the opponent's effect *)

Lemma schedule_pending_decision : forall due r ts,
  List.length (filter isAiTurnTimer (schedule due (CbAiTurn r) ts))
  = S (List.length (filter isAiTurnTimer ts)).
Proof.
  intros due r ts. induction ts as [|[d c] ts IH]; simpl; [reflexivity|].
  destruct (Nat.ltb due d); simpl; [reflexivity|].
  destruct (isAiTurnTimer (d, c)); simpl; rewrite IH; reflexivity.
Qed.

Lemma applyAction_tame_guard : forall s a,
  tame a ->
  isAiThinking (cur (applyAction s a)) = isAiThinking (cur s) /\
  pendingDecisions (applyAction s a) = pendingDecisions s.
Proof.
  intros s a Ha. unfold pendingDecisions.
  destruct a; simpl in *; try contradiction; auto.
  split; [reflexivity|]. rewrite schedule_filter_other; [reflexivity|].
  destruct cb; simpl; tauto.
Qed.

Lemma applyActions_tame_guard : forall acts s,
  Forall tame acts ->
  isAiThinking (cur (applyActions acts s)) = isAiThinking (cur s) /\
  pendingDecisions (applyActions acts s) = pendingDecisions s.
Proof.
  induction acts as [|a acts IH]; intros s Ha; [auto|].
  inversion Ha as [|? ? Hhd Htl]; subst. unfold applyActions in *. simpl.
  destruct (IH (applyAction s a) Htl) as [H1 H2].
  destruct (applyAction_tame_guard s a Hhd) as [H3 H4].
  split; congruence.
Qed.

(** Rendering keeps the guard: the effect registers a decision only
    with the flag down, and raises it. *)
Lemma commit_guarded_from : forall acts s,
  guarded (applyActions acts s) -> guarded (commit acts s).
Proof.
  intros acts s H. unfold commit.
  destruct (depsChanged _ _ _); [|exact H].
  destruct (exec_aiTurnEffect (cur (applyActions acts s)) (applyActions acts s))
    as [E|(_ & _ & Hth & E)]; rewrite E; [exact H|].
  unfold guarded, pendingDecisions in *. simpl.
  rewrite schedule_pending_decision. rewrite Hth in H. rewrite H. reflexivity.
Qed.

Lemma commit_tame_guarded : forall acts s,
  Forall tame acts -> guarded s -> guarded (commit acts s).
Proof.
  intros acts s Ha H. apply commit_guarded_from.
  destruct (applyActions_tame_guard acts s Ha) as [H1 H2].
  unfold guarded in *. rewrite H1, H2. exact H.
Qed.

Lemma commitEach_tame_guarded : forall acts s,
  Forall tame acts -> guarded s -> guarded (commitEach acts s).
Proof.
  induction acts as [|a acts IH]; intros s Ha H; [exact H|].
  inversion Ha as [|? ? Hhd Htl]; subst. unfold commitEach in *. simpl.
  apply IH; [assumption|]. apply commit_tame_guarded; [|exact H].
  constructor; auto.
Qed.

(** While the flag is up and nothing is pending, tame updates rendered
    one by one leave it so: the effect stays idle. *)
Lemma commitEach_tame_running : forall acts s,
  Forall tame acts ->
  isAiThinking (cur s) = true -> pendingDecisions s = 0 ->
  isAiThinking (cur (commitEach acts s)) = true /\
  pendingDecisions (commitEach acts s) = 0.
Proof.
  induction acts as [|a acts IH]; intros s Ha Hth Hp; [auto|].
  inversion Ha as [|? ? Hhd Htl]; subst. unfold commitEach in *. simpl.
  assert (Ht : Forall tame [a]) by (constructor; auto).
  destruct (applyActions_tame_guard [a] s Ht) as [H1 H2].
  assert (E : commit [a] s = applyActions [a] s).
  { apply commit_idle. right; right. rewrite H1. exact Hth. }
  apply IH; [assumption| |]; rewrite E; congruence.
Qed.

Lemma fold_commit_app : forall acts acts' s,
  commitEach (acts ++ acts') s = commitEach acts' (commitEach acts s).
Proof. intros. unfold commitEach. apply fold_left_app. Qed.

Lemma applyActions_app : forall acts acts' s,
  applyActions (acts ++ acts') s = applyActions acts' (applyActions acts s).
Proof. intros. unfold applyActions. apply fold_left_app. Qed.

Lemma tick_guarded : forall batched s s',
  okSys s -> guarded s -> step batched Tick s = Some s' -> guarded s'.
Proof.
  intros batched s s' [_ Hok] Hg Hstep. simpl in Hstep.
  destruct (timers s) as [|[due cb] rest] eqn:Et; [discriminate|].
  injection Hstep as <-.
  set (s1 := mkSys (cur s) rest (Nat.max (now s) due)).
  inversion Hok as [|? ? Hcb _]; subst. simpl in Hcb.
  unfold guarded, pendingDecisions in Hg. rewrite Et in Hg.
  destruct cb as [t|r t|r].
  - assert (G1 : guarded s1) by exact Hg.
    assert (Ht : Forall tame (actions (runCallback (CbSetTurn t))))
      by (repeat constructor).
    destruct batched; [apply commit_tame_guarded|apply commitEach_tame_guarded];
      assumption.
  - assert (G1 : guarded s1) by exact Hg.
    assert (Ht : Forall tame (actions (runCallback (CbCheckWinTurn r t)))).
    { simpl. apply bind_actions_Forall; [apply checkWin_tame|intros won].
      destruct won; shape_actions. }
    destruct batched; [apply commit_tame_guarded|apply commitEach_tame_guarded];
      assumption.
  - simpl in Hg.
    destruct (isAiThinking (cur s)) eqn:Hth; [|discriminate].
    injection Hg as Hrest.
    assert (Hth1 : isAiThinking (cur s1) = true) by exact Hth.
    assert (Hp1 : pendingDecisions s1 = 0) by exact Hrest.
    destruct (aiTurnCallback_shape r) as [(acts & Ht & E)|[E _]].
    + simpl runCallback. rewrite E.
      assert (Hend : forall s2,
                isAiThinking (cur s2) = true -> pendingDecisions s2 = 0 ->
                guarded (applyActions [SetIsAiThinking false] s2)).
      { intros s2 _ H0. unfold guarded, pendingDecisions in *. simpl.
        exact H0. }
      destruct batched; unfold commitTimer.
      * apply commit_guarded_from. rewrite applyActions_app.
        destruct (applyActions_tame_guard acts s1 Ht) as [H1 H2].
        apply Hend; congruence.
      * rewrite fold_commit_app.
        destruct (commitEach_tame_running acts s1 Ht Hth1 Hp1) as [H1 H2].
        apply (commit_guarded_from [SetIsAiThinking false]).
        apply Hend; assumption.
    + exfalso. rewrite filterE_defined in E by exact Hcb. discriminate.
Qed.

Lemma step_guarded : forall batched e s s',
  isRestart e = false ->
  okSys s -> guarded s -> step batched e s = Some s' -> guarded s'.
Proof.
  intros batched e s s' He Hok Hg Hstep.
  destruct e as [t|t c|t su|t d|]; try discriminate;
    [| | |exact (tick_guarded batched s s' Hok Hg Hstep)]; simpl in Hstep.
  - destruct (clickableAt t s); [|discriminate].
    destruct (Turn_eqb _ _ && GameStatus_eqb _ _);
      injection Hstep as <-; [|exact Hg].
    apply commit_tame_guarded; [apply drawCard_tame|exact Hg].
  - destruct (clickableAt t s && existsb _ _); [|discriminate].
    destruct (isPlayable _ c) as [[|]|]; try discriminate;
      injection Hstep as <-; [|exact Hg].
    apply commit_tame_guarded; [apply playCard_tame|exact Hg].
  - destruct (clickableAt t s && showSuitSelector (cur s)); [|discriminate].
    injection Hstep as <-.
    apply commit_tame_guarded; [apply handleSuitSelect_tame|exact Hg].
Qed.

Lemma boot_guarded : forall d, isFullDeck d = true -> guarded (boot d).
Proof.
  intros d H. unfold boot.
  destruct (firstNonEight_full d H) as [i Hi].
  destruct (firstNonEight_Some _ _ Hi) as (pre & fd & post & E & _ & Hpre & Hfd).
  apply commit_guarded_from.
  rewrite (initGame_actions d pre fd post E Hpre Hfd). reflexivity.
Qed.

(** X8.  The re-entry guard of the opponent's effect.  In every run
    from a mount on a full deck in which the player does not restart, the
    thinking flag is up exactly while a decision of the opponent is
    pending, and at most one decision is pending at a time. *)
Theorem reentry_guard : forall batched d es s,
  isFullDeck d = true ->
  noRestart es = true ->
  run batched es (boot d) = Some s ->
  guarded s /\ pendingDecisions s <= 1.
Proof.
  intros batched d es s Hd Hes Hrun.
  assert (H : forall es s0 s,
            noRestart es = true -> reachable batched s0 -> guarded s0 ->
            run batched es s0 = Some s -> guarded s).
  { clear. induction es as [|e es IH]; intros s0 s Hes Hr Hg Hrun; simpl in *.
    - injection Hrun as <-. exact Hg.
    - apply andb_true_iff in Hes as [He Hes]. apply negb_true_iff in He.
      destruct (step batched e s0) as [s1|] eqn:E; [|discriminate].
      apply (IH s1 s Hes); [| |exact Hrun].
      + exact (reach_step batched s0 e s1 Hr E).
      + exact (step_guarded batched e s0 s1 He (reachable_ok batched s0 Hr) Hg E). }
  assert (G : guarded s).
  { apply (H es (boot d) s Hes); [apply reach_boot, Hd|apply boot_guarded, Hd|].
    exact Hrun. }
  split; [exact G|]. unfold guarded in G. rewrite G.
  destruct (isAiThinking (cur s)); lia.
Qed.

Lemma reentry_guard_witness :
  exists s,
    run true staleClicks (boot staleDeck) = Some s /\
    guarded s /\ pendingDecisions s <= 1.
Proof.
  destruct (run true staleClicks (boot staleDeck)) as [s|] eqn:E;
    [|vm_compute in E; discriminate].
  exists s. split; [reflexivity|].
  apply (reentry_guard true staleDeck staleClicks s);
    [vm_compute; reflexivity|reflexivity|exact E].
Defined.

(** ** Restart *)

(** X9.  A restart resets the state and cancels no timer.  Whenever the
    restart button is clicked, the timers registered before are all
    still registered afterwards, while the thinking flag is down, the
    selector closed, the Turn the player's and Status playing; so a
    decision of the opponent pending before the restart is pending after
    it with the flag down, and the re-entry guard is lost. *)
Theorem restart_cancels_no_timer : forall batched s t d s',
  step batched (ClickRestart t d) s = Some s' ->
  timers s' = timers s /\
  isAiThinking (cur s') = false /\
  showSuitSelector (cur s') = false /\
  turn (cur s') = player /\
  status (cur s') = playing /\
  (pendingDecisions s >= 1 -> ~ guarded s').
Proof.
  intros batched s t d s' Hstep. simpl in Hstep.
  destruct (clickableAt t s && isFullDeck d) eqn:G; [|discriminate].
  apply andb_true_iff in G as [_ Hd]. injection Hstep as <-.
  destruct (firstNonEight_full d Hd) as [i Hi].
  destruct (firstNonEight_Some _ _ Hi) as (pre & fd & post & E & _ & Hpre & Hfd).
  rewrite (initGame_actions d pre fd post E Hpre Hfd).
  rewrite commit_idle by (left; reflexivity).
  simpl. repeat apply conj; try reflexivity.
  unfold guarded, pendingDecisions. simpl. intros H1 H2. lia.
Qed.

Lemma restart_cancels_no_timer_witness :
  exists s s',
    run true [ClickCard 0 (cardOf ACE HEARTS); Tick] (boot staleDeck) = Some s /\
    step true (ClickRestart 2000 quickWinDeck) s = Some s' /\
    pendingDecisions s = 1 /\
    timers s' = timers s /\
    isAiThinking (cur s') = false.
Proof.
  destruct (run true [ClickCard 0 (cardOf ACE HEARTS); Tick] (boot staleDeck))
    as [s|] eqn:E; [|vm_compute in E; discriminate].
  destruct (step true (ClickRestart 2000 quickWinDeck) s) as [s'|] eqn:E';
    [|vm_compute in E; injection E as <-; vm_compute in E'; discriminate].
  exists s, s'. split; [reflexivity|]. split; [exact E'|].
  split; [vm_compute in E; injection E as <-; reflexivity|].
  destruct (restart_cancels_no_timer true s 2000 quickWinDeck s' E')
    as (H1 & H2 & _).
  split; [exact H1|exact H2].
Defined.

(** ** [initGame] on a deck without a card to start the pile *)

Lemma firstNonEight_None_iff : forall l,
  firstNonEight l = None <-> forallb isEight l = true.
Proof.
  induction l as [|c l IH]; simpl; [tauto|]. unfold isEight at 1.
  destruct (Rank_eqb (rank c) EIGHT); simpl.
  - rewrite <- IH. destruct (firstNonEight l); simpl; split; congruence.
  - split; discriminate.
Qed.

(** X10.  [initGame] throws, before it sets anything, exactly when every
    card after the sixteen dealt ones is an Eight; in particular on a
    deck of sixteen cards or fewer. *)
Theorem initGame_throws_without_first_discard : forall d,
  threw (initGame d) = forallb isEight (skipn 16 d) /\
  (threw (initGame d) = true -> actions (initGame d) = []) /\
  (List.length d <= 16 -> threw (initGame d) = true).
Proof.
  intros d.
  assert (E16 : skipn 8 (skipn 8 d) = skipn 16 d)
    by (rewrite skipn_skipn; reflexivity).
  assert (H : threw (initGame d) = forallb isEight (skipn 16 d) /\
              (threw (initGame d) = true -> actions (initGame d) = [])).
  { unfold initGame. rewrite E16.
    destruct (firstNonEight (skipn 16 d)) as [i|] eqn:E.
    - destruct (firstNonEight_Some _ _ E) as (pre & fd & post & Hd & Hi & Hpre & Hfd).
      assert (Hn : nth_error (skipn 16 d) i = Some fd).
      { rewrite Hd, nth_error_app2, <- Hi, Nat.sub_diag by lia. reflexivity. }
      assert (F : forallb isEight (skipn 16 d) = false).
      { destruct (forallb isEight (skipn 16 d)) eqn:F; [|reflexivity].
        apply firstNonEight_None_iff in F. congruence. }
      rewrite bind_lift_Some, Hn, bind_lift_Some, F.
      split; [reflexivity|discriminate].
    - apply firstNonEight_None_iff in E. rewrite E. split; reflexivity. }
  destruct H as [H1 H2]. split; [exact H1|]. split; [exact H2|].
  intros Hlen. rewrite H1, skipn_all2 by exact Hlen. reflexivity.
Qed.

(** ** What may be played next *)

(** X11.  What may follow a play.  After a card that is not an Eight, a
    card is legal exactly when it is an Eight or shares the suit or the
    rank of the played card.  After an Eight of the opponent, exactly
    the Eights and the cards of the suit most frequent in the hand the
    opponent held when it played; after an Eight of the player and the
    choice of a suit, exactly the Eights and the cards of that suit. *)
Theorem next_legal_card : forall s c target d,
  let s' := exec (playCard (cur s) c target) s in
  (rank c <> EIGHT ->
   canPlay (cur s') d =
     Some (isEight d || Suit_eqb (suit d) (suit c)
           || Rank_eqb (rank d) (rank c))) /\
  (rank c = EIGHT -> target = ai ->
   canPlay (cur s') d =
     Some (isEight d || Suit_eqb (suit d) (bestSuit (aiHand (cur s))))) /\
  (rank c = EIGHT -> target = player ->
   forall su,
     canPlay (cur (exec (handleSuitSelect (cur s') su) s')) d =
       Some (isEight d || Suit_eqb (suit d) su)).
Proof.
  intros s c target d s'. subst s'.
  repeat split.
  - intros H8. apply Rank_eqb_neq in H8.
    assert (E : exists r', cur (exec (playCard (cur s) c target) s) = r' /\
                           discardPile r' = discardPile (cur s) ++ [c] /\
                           currentSuit r' = Some (suit c)).
    { eexists. split; [reflexivity|]. unfold playCard. rewrite H8.
      destruct target; split; reflexivity. }
    destruct E as (r' & -> & Hp & Hs).
    rewrite (canPlay_top r' _ c d Hp), Hs. reflexivity.
  - intros H8 ->. apply Rank_eqb_eq in H8.
    assert (E : exists r', cur (exec (playCard (cur s) c ai) s) = r' /\
                           discardPile r' = discardPile (cur s) ++ [c] /\
                           currentSuit r' = Some (bestSuit (aiHand (cur s)))).
    { eexists. split; [reflexivity|]. unfold playCard. rewrite H8.
      split; reflexivity. }
    destruct E as (r' & -> & Hp & Hs).
    rewrite (canPlay_top r' _ c d Hp), Hs. simpl. unfold isEight.
    apply Rank_eqb_eq in H8. rewrite H8.
    destruct (Rank_eqb (rank d) EIGHT); simpl; [reflexivity|].
    rewrite orb_false_r. reflexivity.
  - intros H8 -> su. apply Rank_eqb_eq in H8.
    assert (E : exists r',
              cur (exec (handleSuitSelect (cur (exec (playCard (cur s) c player) s)) su)
                     (exec (playCard (cur s) c player) s)) = r' /\
              discardPile r' = discardPile (cur s) ++ [c] /\
              currentSuit r' = Some su).
    { eexists. split; [reflexivity|]. unfold playCard. rewrite H8.
      split; reflexivity. }
    destruct E as (r' & -> & Hp & Hs).
    rewrite (canPlay_top r' _ c d Hp), Hs. simpl. unfold isEight.
    apply Rank_eqb_eq in H8. rewrite H8.
    destruct (Rank_eqb (rank d) EIGHT); simpl; [reflexivity|].
    rewrite orb_false_r. reflexivity.
Qed.

(** ** From the player's play to the opponent's decision *)

Lemma isPlayable_true : forall r c,
  isPlayable r c = Some true ->
  turn r = player /\ status r = playing /\ canPlay r c = Some true.
Proof.
  intros r c H. unfold isPlayable in H.
  destruct (turn r), (status r); simpl in H; try discriminate. auto.
Qed.

Lemma existsb_CardData_In : forall c l,
  existsb (CardData_eqb c) l = true -> In c l.
Proof.
  intros c l H. apply existsb_exists in H as [x [Hx E]].
  apply CardData_eqb_eq in E. subst x. exact Hx.
Qed.

Lemma checkWin_no_winner : forall r,
  playerHand r <> [] -> aiHand r <> [] -> checkWin r = ret false.
Proof.
  intros r Hp Ha. unfold checkWin.
  destruct (playerHand r); [contradiction|]. destruct (aiHand r); [contradiction|].
  reflexivity.
Qed.

(** X12.  From the player's play to the opponent's decision.  When the
    player plays a card that is not an Eight, with no timer pending and
    the opponent holding cards, the Turn stays the player's for 1000 ms;
    the one timer registered then passes the Turn to the opponent, which
    starts thinking, and the decision registered for 2000 ms later closes
    over the render that has the played card on top of the discard pile
    and its suit as Active Suit. *)
Theorem player_play_hands_over : forall batched s t c,
  clickableAt t s = true ->
  timers s = [] ->
  isAiThinking (cur s) = false ->
  existsb (CardData_eqb c) (playerHand (cur s)) = true ->
  isPlayable (cur s) c = Some true ->
  rank c <> EIGHT ->
  aiHand (cur s) <> [] ->
  exists s1 s2 r,
    step batched (ClickCard t c) s = Some s1 /\
    turn (cur s1) = player /\
    timers s1 = [(t + 1000, CbCheckWinTurn (cur s) ai)] /\
    step batched Tick s1 = Some s2 /\
    now s2 = t + 1000 /\
    turn (cur s2) = ai /\
    status (cur s2) = playing /\
    isAiThinking (cur s2) = true /\
    timers s2 = [(t + 3000, CbAiTurn r)] /\
    piles r = piles (cur s1) /\
    discardPile r = discardPile (cur s) ++ [c] /\
    currentSuit r = Some (suit c) /\
    turn r = ai.
Proof.
  intros batched s t c Hclick Htim Hth Hin Hplay H8 Hai.
  destruct (isPlayable_true _ _ Hplay) as (Hturn & Hstat & _).
  apply Rank_eqb_neq in H8.
  assert (Hhand : playerHand (cur s) <> []).
  { apply existsb_CardData_In in Hin. destruct (playerHand (cur s)); [contradiction|].
    discriminate. }
  assert (Hacts : actions (playCard (cur s) c player) =
            [SetPlayerHand (filter (fun x => negb (String.eqb (id x) (id c)))
                              (playerHand (cur s)));
             SetDiscardPile (discardPile (cur s) ++ [c]);
             SetCurrentSuit (Some (suit c));
             SetMessage (MsgPlayed player (rank c) (suit c));
             SetTimeout (CbCheckWinTurn (cur s) ai) 1000]).
  { unfold playCard. rewrite H8. reflexivity. }
  set (s1 := applyActions (actions (playCard (cur s) c player)) (at_time t s)).
  assert (Hstep1 : step batched (ClickCard t c) s = Some s1).
  { unfold step. rewrite Hclick, Hin. simpl andb. cbv iota.
    change (cur (at_time t s)) with (cur s). rewrite Hplay.
    f_equal. apply commit_idle. rewrite Hacts. simpl. left. exact Hturn. }
  assert (Hs1 : s1 = mkSys
            (mkState (deck (cur s))
               (filter (fun x => negb (String.eqb (id x) (id c))) (playerHand (cur s)))
               (aiHand (cur s)) (discardPile (cur s) ++ [c]) (Some (suit c))
               player playing (showSuitSelector (cur s))
               (MsgPlayed player (rank c) (suit c)) false)
            [(t + 1000, CbCheckWinTurn (cur s) ai)] t).
  { unfold s1. rewrite Hacts. simpl. rewrite Htim, Hturn, Hstat, Hth. reflexivity. }
  exists s1. rewrite Hs1.
  assert (Hmax : Nat.max t (t + 1000) = t + 1000) by lia.
  eexists. eexists.
  split; [rewrite <- Hs1; exact Hstep1|].
  split; [reflexivity|]. split; [reflexivity|].
  split.
  { unfold step. cbn [timers cur now]. rewrite Hmax.
    cbn [runCallback]. rewrite (checkWin_no_winner _ Hhand Hai).
    assert (E : forall s0, commitTimer batched [SetTurn ai] s0 = commit [SetTurn ai] s0)
      by (intros; destruct batched; reflexivity).
    change (actions (won <- ret false;; (if negb won then emit [SetTurn ai] else ret tt)))
      with [SetTurn ai].
    rewrite E. unfold commit. simpl. reflexivity. }
  simpl. replace (t + 1000 + 2000) with (t + 3000) by lia.
  repeat apply conj; reflexivity.
Qed.

Lemma player_play_hands_over_witness :
  (clickableAt 0 (boot staleDeck) = true /\
   timers (boot staleDeck) = [] /\
   isAiThinking (cur (boot staleDeck)) = false /\
   existsb (CardData_eqb (cardOf ACE HEARTS))
     (playerHand (cur (boot staleDeck))) = true /\
   isPlayable (cur (boot staleDeck)) (cardOf ACE HEARTS) = Some true /\
   aiHand (cur (boot staleDeck)) <> []) /\
  exists s1 s2,
    step true (ClickCard 0 (cardOf ACE HEARTS)) (boot staleDeck) = Some s1 /\
    step true Tick s1 = Some s2 /\
    now s2 = 1000 /\
    turn (cur s2) = ai /\
    isAiThinking (cur s2) = true.
Proof.
  split; [repeat split; try (vm_compute; reflexivity); vm_compute; discriminate|].
  destruct (player_play_hands_over true (boot staleDeck) 0 (cardOf ACE HEARTS))
    as (s1 & s2 & r & H1 & _ & _ & H2 & H3 & H4 & _ & H5 & _);
    try (vm_compute; reflexivity); try (vm_compute; discriminate).
  exists s1, s2. repeat split; assumption.
Defined.

(** ** A decision right after a decision *)










(** ** An Eight of the player *)



(** ** [Card] *)

(** X15.  What [Card] shows and forwards.  The click handler it is
    given is installed only when the card is playable, and then the card
    is highlighted and lifts under the pointer.  Face down, the view
    has no face and does not depend on the card.  Face up, the two
    corners are the same, carry the rank and the suit of the card, and
    have the colour of the centre icon, which is red exactly for Hearts
    and Diamonds. *)
Theorem Card_shows_and_forwards : forall c faceUp onClick playable,
  let v := Card (mkCardProps c faceUp onClick playable) in
  (* clicks *)
  (viewOnClick v = if match playable with Some b => b | None => false end
                   then onClick else None) /\
  (viewOnClick v <> None ->
   playable = Some true /\ ringStyle v = true /\ whileHover v = true) /\
  (* the back *)
  (faceUp = Some false ->
   content v = None /\
   forall c', Card (mkCardProps c' faceUp onClick playable) = v) /\
  (* the face *)
  (faceUp <> Some false ->
   exists f,
     content v = Some f /\
     bottomRight f = topLeft f /\
     cornerRank (topLeft f) = rank c /\
     cornerIcon (topLeft f) = SuitIcon (suit c) 14 /\
     centre f = SuitIcon (suit c) 32 /\
     cornerTone (topLeft f) = glyphTone (centre f) /\
     glyphTone (cornerIcon (topLeft f)) = glyphTone (centre f) /\
     (glyphTone (centre f) = red500 <-> isRedSuit (suit c) = true)).
Proof.
  intros c faceUp onClick playable v. subst v. unfold Card. simpl.
  split; [reflexivity|]. split; [|split].
  - destruct playable as [[|]|]; simpl; intros H; try contradiction; auto.
  - intros ->. split; reflexivity.
  - intros H.
    assert (E : match faceUp with Some b => b | None => true end = true)
      by (destruct faceUp as [[|]|]; try reflexivity; contradiction).
    rewrite E. eexists. split; [reflexivity|]. simpl.
    unfold isRedSuit. destruct (suit c); simpl; repeat split; congruence.
Qed.

(** ** The table *)

(** X16.  The opponent's hand is drawn as backs: one card back per card
    held, without click handler, highlight or face, so that two renders
    in which the opponent holds the same number of cards draw the same
    hand. *)
Theorem opponent_hand_is_hidden : forall r,
  renderAiHand r = repeat cardBack (List.length (aiHand r)) /\
  (forall r', List.length (aiHand r') = List.length (aiHand r) ->
              renderAiHand r' = renderAiHand r).
Proof.
  assert (H : forall r, renderAiHand r = repeat cardBack (List.length (aiHand r))).
  { intros r. unfold renderAiHand. induction (aiHand r) as [|c l IH];
      [reflexivity|]. simpl. rewrite IH. reflexivity. }
  intros r. split; [apply H|]. intros r' E. rewrite !H, E. reflexivity.
Qed.











Lemma CardData_eqb_refl : forall c, CardData_eqb c c = true.
Proof.
  intros [i su r]. unfold CardData_eqb. simpl.
  rewrite String.eqb_refl, Suit_eqb_refl. destruct r; reflexivity.
Qed.

Lemma In_existsb_CardData : forall c l,
  In c l -> existsb (CardData_eqb c) l = true.
Proof.
  intros c l H. apply existsb_exists. exists c. split; [exact H|].
  apply CardData_eqb_refl.
Qed.

Lemma mapE_Forall2 : forall (A B : Type) (f : A -> option B) l vs,
  mapE f l = Some vs -> Forall2 (fun x y => In x l /\ f x = Some y) l vs.
Proof.
  induction l as [|x l IH]; intros vs H; simpl in H.
  - injection H as <-. constructor.
  - destruct (f x) as [y|] eqn:E; [|discriminate].
    destruct (mapE f l) as [t|]; [|discriminate]. injection H as <-.
    constructor; [split; [left; reflexivity|exact E]|].
    specialize (IH t eq_refl).
    eapply Forall2_impl; [|exact IH].
    intros a b [H1 H2]. split; [right; exact H1|exact H2].
Qed.

Lemma mapE_defined : forall (A B : Type) (f : A -> option B) l,
  (forall x, In x l -> f x <> None) -> exists vs, mapE f l = Some vs.
Proof.
  induction l as [|x l IH]; intros H; simpl; [eauto|].
  destruct (f x) as [y|] eqn:E; [|exfalso; apply (H x); [left; reflexivity|exact E]].
  destruct IH as [vs Hvs]; [intros; apply H; right; assumption|].
  rewrite Hvs. eauto.
Qed.

Lemma drawCard_issues : forall r t, actions (drawCard r t) <> [].
Proof.
  intros r t. unfold drawCard. destruct (lastOf (deck r)); [|discriminate].
  destruct t; [|discriminate]. destruct (canPlay r c) as [[|]|]; discriminate.
Qed.

(** ** Highlights, dimming and clicks *)

(** X18.  Highlights, dimming and clicks agree.  In a render with a
    discard pile, a card of the player's hand is highlighted exactly
    when it is the player's Turn, Status is playing and the card is
    legal; it has a click handler exactly when it is highlighted, the
    handler plays that card, and a click on the card commits what the
    handler issues or, without handler, does nothing.  The draw pile is
    dimmed exactly when its handler issues nothing, and a click on it
    commits what the handler issues.  While the game-over dialog is up,
    the draw pile is dimmed and no card of the hand is highlighted or
    clickable. *)
Theorem highlight_matches_click : forall batched s t,
  clickableAt t s = true ->
  discardPile (cur s) <> [] ->
  exists views,
    renderPlayerHand (cur s) = Some views /\
    Forall2 (fun c v =>
               (ringStyle v = true <->
                turn (cur s) = player /\ status (cur s) = playing /\
                canPlay (cur s) c = Some true) /\
               whileHover v = ringStyle v /\
               viewOnClick v
               = (if ringStyle v then Some (playCard (cur s) c player) else None) /\
               step batched (ClickCard t c) s
               = Some (match viewOnClick v with
                       | Some h => commit (actions h) (at_time t s)
                       | None => at_time t s
                       end))
            (playerHand (cur s)) views /\
    (drawPileDimmed (cur s) = true <-> actions (drawPileOnClick (cur s)) = []) /\
    step batched (ClickDrawPile t) s
    = Some (if drawPileDimmed (cur s) then at_time t s
            else commit (actions (drawPileOnClick (cur s))) (at_time t s)) /\
    (renderGameOver (cur s) <> None ->
     drawPileDimmed (cur s) = true /\
     Forall (fun v => viewOnClick v = None /\ ringStyle v = false) views).
Proof.
  intros batched s t Hclick Hpile.
  set (r := cur s).
  set (f := fun card =>
              match (if Turn_eqb (turn r) player && GameStatus_eqb (status r) playing
                     then canPlay r card else Some false) with
              | Some playable =>
                  Some (Card (mkCardProps card None
                                (Some (playCard r card player)) (Some playable)))
              | None => None
              end).
  assert (Hf : forall c, f c = Some (Card (mkCardProps c None
                 (Some (playCard r c player))
                 (Some (Turn_eqb (turn r) player && GameStatus_eqb (status r) playing
                        && playableb r c))))).
  { intros c. unfold f. rewrite (canPlay_defined r c Hpile).
    destruct (Turn_eqb (turn r) player && GameStatus_eqb (status r) playing);
      reflexivity. }
  destruct (mapE_defined _ _ f (playerHand r)) as [views Hviews].
  { intros c _. rewrite Hf. discriminate. }
  exists views. split; [exact Hviews|].
  pose proof (mapE_Forall2 _ _ f _ _ Hviews) as H2.
  assert (Hgate : Turn_eqb (turn r) player && GameStatus_eqb (status r) playing = true
                  <-> turn r = player /\ status r = playing).
  { destruct (turn r), (status r); simpl; split; try tauto; try discriminate;
      intros [? ?]; discriminate. }
  split; [|split; [|split]].
  - eapply Forall2_impl; [|exact H2].
    intros c v [Hin Hv]. rewrite Hf in Hv. injection Hv as <-.
    unfold Card. simpl.
    set (g := Turn_eqb (turn r) player && GameStatus_eqb (status r) playing) in *.
    split.
    { rewrite andb_true_iff, Hgate. unfold playableb.
      rewrite (canPlay_defined r c Hpile). unfold playableb.
      destruct (canPlay r c) as [[|]|]; split;
        try (intros [[? ?] ?]; repeat split; try assumption; try reflexivity;
             discriminate);
        try (intros [? [? ?]]; repeat split; try assumption; try reflexivity;
             discriminate). }
    split; [reflexivity|]. split; [reflexivity|].
    unfold step. fold r. rewrite Hclick, (In_existsb_CardData c _ Hin). simpl andb.
    cbv iota. change (cur (at_time t s)) with r. unfold isPlayable. fold g.
    rewrite (canPlay_defined r c Hpile).
    destruct g; [destruct (playableb r c)|]; reflexivity.
  - unfold drawPileDimmed, drawPileOnClick.
    destruct (turn r), (status r); simpl; split; try reflexivity;
      try discriminate.
    intros H. exfalso. exact (drawCard_issues r player H).
  - unfold step. rewrite Hclick. change (cur (at_time t s)) with r.
    unfold drawPileDimmed, drawPileOnClick.
    destruct (turn r), (status r); reflexivity.
  - intros Hover.
    assert (Hst : status r <> playing).
    { intros E. apply Hover. unfold renderGameOver. fold r. rewrite E. reflexivity. }
    split; [unfold drawPileDimmed; fold r; destruct (turn r), (status r);
            try reflexivity; contradiction|].
    assert (Hg : Turn_eqb (turn r) player && GameStatus_eqb (status r) playing = false)
      by (destruct (turn r), (status r); try reflexivity; contradiction).
    clear - H2 Hf Hg. induction H2 as [|c v l vs [_ Hv] _ IH]; constructor; auto.
    rewrite Hf, Hg in Hv. injection Hv as <-. split; reflexivity.
Qed.

Lemma highlight_matches_click_witness :
  (clickableAt 0 (boot staleDeck) = true /\
   discardPile (cur (boot staleDeck)) <> []) /\
  exists views,
    renderPlayerHand (cur (boot staleDeck)) = Some views /\
    map ringStyle views
    = [true; true; false; false; false; false; false; false] /\
    (drawPileDimmed (cur (boot staleDeck)) = true <->
     actions (drawPileOnClick (cur (boot staleDeck))) = []).
Proof.
  split; [split; [vm_compute; reflexivity|vm_compute; discriminate]|].
  destruct (highlight_matches_click true (boot staleDeck) 0)
    as (views & H1 & _ & H2 & _);
    [vm_compute; reflexivity|vm_compute; discriminate|].
  exists views. split; [exact H1|]. split; [|exact H2].
  vm_compute in H1. injection H1 as <-. reflexivity.
Defined.
